(** * Expense tracker: aggregation and record-store operations

    A shallow embedding of the expense calculator component
    ([ExpenseCalculator.tsx], in its local and its persisted variant) and of
    the chart aggregator ([ExpenseCharts.tsx]), followed by the properties
    the specification states about them.

    Modelling conventions.
    - A JavaScript [number] is an exact rational extended with [Infinity],
      [-Infinity] and [NaN]: division by zero and the propagation of the
      special values follow IEEE 754, while binary64 rounding and the sign
      of zero are outside the model.
    - A string is a [string]; an array is a [list]; [reduce] is [fold_left];
      the object used as a dictionary in [categoryTotals] is a [gmap].
    - [Date] values are time values in milliseconds since the epoch, with
      [None] for an invalid date; the local time zone is UTC.
    - React state and the effects of a handler (notifications, remote
      calls, navigation) are explicit: a handler maps a state to a program
      whose result is the next state. *)

From Stdlib Require Import ZArith QArith Qcanon String Ascii List Lia.
From Stdlib Require Import Sorting Permutation DecimalString DecimalPos DecimalZ.
From stdpp Require Import base list strings numbers gmap fin_maps.

Import ListNotations.
Local Open Scope string_scope.
Local Open Scope list_scope.
Local Open Scope Z_scope.

(** ** JavaScript numbers *)

Module JSNumber.

Inductive number : Type :=
| Num (q : Qc)
| PosInfinity
| NegInfinity
| NaN.

Definition zero : number := Num (Qc_of_Z 0).
Definition ofZ (z : Z) : number := Num (Qc_of_Z z).

Definition isFinite (x : number) : bool :=
  match x with Num _ => true | _ => false end.

(** [x + y] *)
Definition add (x y : number) : number :=
  match x, y with
  | NaN, _ | _, NaN => NaN
  | Num a, Num b => Num (a + b)%Qc
  | PosInfinity, NegInfinity | NegInfinity, PosInfinity => NaN
  | PosInfinity, _ | _, PosInfinity => PosInfinity
  | NegInfinity, _ | _, NegInfinity => NegInfinity
  end.

Definition sign (a : Qc) : comparison := (a ?= Qc_of_Z 0)%Qc.

Definition neg (x : number) : number :=
  match x with
  | Num a => Num (- a)%Qc
  | PosInfinity => NegInfinity
  | NegInfinity => PosInfinity
  | NaN => NaN
  end.

Definition signed_infinity (s : comparison) : number :=
  match s with Gt => PosInfinity | Lt => NegInfinity | Eq => NaN end.

(** [x * y] *)
Definition mul (x y : number) : number :=
  match x, y with
  | NaN, _ | _, NaN => NaN
  | Num a, Num b => Num (a * b)%Qc
  | Num a, PosInfinity | PosInfinity, Num a => signed_infinity (sign a)
  | Num a, NegInfinity | NegInfinity, Num a => neg (signed_infinity (sign a))
  | PosInfinity, PosInfinity | NegInfinity, NegInfinity => PosInfinity
  | PosInfinity, NegInfinity | NegInfinity, PosInfinity => NegInfinity
  end.

(** [x / y]; a zero divisor yields an infinity of the sign of [x], or
    [NaN] for [0 / 0]. *)
Definition div (x y : number) : number :=
  match x, y with
  | NaN, _ | _, NaN => NaN
  | Num a, Num b =>
      match sign b with
      | Eq => signed_infinity (sign a)
      | _ => Num (a / b)%Qc
      end
  | Num _, _ => zero
  | PosInfinity, Num b =>
      match sign b with Lt => NegInfinity | _ => PosInfinity end
  | NegInfinity, Num b =>
      match sign b with Lt => PosInfinity | _ => NegInfinity end
  | _, _ => NaN
  end.

(** [x > y]; every comparison with [NaN] is false. *)
Definition gtb (x y : number) : bool :=
  match x, y with
  | NaN, _ | _, NaN => false
  | Num a, Num b => match (a ?= b)%Qc with Gt => true | _ => false end
  | PosInfinity, PosInfinity => false
  | PosInfinity, _ => true
  | Num _, NegInfinity => true
  | _, _ => false
  end.

(** Truthiness of a number: [0] and [NaN] are falsy. *)
Definition truthy (x : number) : bool :=
  match x with
  | Num a => match sign a with Eq => false | _ => true end
  | NaN => false
  | _ => true
  end.

(** [x || y] on numbers. *)
Definition or_else (x y : number) : number :=
  if truthy x then x else y.

Definition eqb (x y : number) : bool :=
  match x, y with
  | Num a, Num b => Qeq_bool a b
  | PosInfinity, PosInfinity | NegInfinity, NegInfinity | NaN, NaN => true
  | _, _ => false
  end.

End JSNumber.

Export JSNumber.

Declare Scope number_scope.
Delimit Scope number_scope with num.
Bind Scope number_scope with number.
Infix "+" := JSNumber.add : number_scope.
Infix "*" := JSNumber.mul : number_scope.
Infix "/" := JSNumber.div : number_scope.

(** ** Expense records *)

Record Expense : Type := mkExpense {
  id : string;
  amount : number;
  category : string;
  description : string;
  date : string
}.

(** ** Strings *)

Module JSString.

(** [String(n)] for an integral number. *)
Definition ofZ (z : Z) : string := NilZero.string_of_int (Z.to_int z).

(** [s.padStart(n, c)] for a one-character filler. *)
Definition padStart (n : nat) (c : ascii) (s : string) : string :=
  String.append (string_of_list_ascii (repeat c (n - String.length s))) s.

(** [a.localeCompare(b)]: the keys compared in this program consist of
    digits, hyphens and the letters of ["NaN"], on which the locale
    collation agrees with the order of character codes. *)
Definition localeCompare (a b : string) : comparison := String.compare a b.

End JSString.

(** ** Dates *)

Module JSDate.

Definition msPerDay : Z := 86400000.

(** The offset of local time from UTC, in milliseconds: the local time
    zone of the model is UTC. *)
Definition LocalTZA : Z := 0.
Definition LocalTime (t : Z) : Z := t + LocalTZA.
Definition UTC (t : Z) : Z := t - LocalTZA.

Definition Day (t : Z) : Z := t / msPerDay.
Definition TimeWithinDay (t : Z) : Z := t mod msPerDay.

(** Day number of a date of the proleptic Gregorian calendar, with
    months numbered from 1, counted from 1970-01-01. *)
Definition days_from_civil (y m d : Z) : Z :=
  let y' := if m <=? 2 then y - 1 else y in
  let era := y' / 400 in
  let yoe := y' - era * 400 in
  let mp := if m >? 2 then m - 3 else m + 9 in
  let doy := (153 * mp + 2) / 5 + d - 1 in
  let doe := yoe * 365 + yoe / 4 - yoe / 100 + doy in
  era * 146097 + doe - 719468.

(** Year, month (from 1) and day of the month of a day number. *)
Definition civil_from_days (z : Z) : Z * Z * Z :=
  let z' := z + 719468 in
  let era := z' / 146097 in
  let doe := z' - era * 146097 in
  let yoe := (doe - doe / 1460 + doe / 36524 - doe / 146096) / 365 in
  let doy := doe - (365 * yoe + yoe / 4 - yoe / 100) in
  let mp := (5 * doy + 2) / 153 in
  let d := doy - (153 * mp + 2) / 5 + 1 in
  let m := if mp <? 10 then mp + 3 else mp - 9 in
  (yoe + era * 400 + (if m <=? 2 then 1 else 0), m, d).

Definition YearFromTime (t : Z) : Z := (civil_from_days (Day t)).1.1.
(** Months are numbered from 0, as [getMonth] does. *)
Definition MonthFromTime (t : Z) : Z := (civil_from_days (Day t)).1.2 - 1.
Definition DateFromTime (t : Z) : Z := (civil_from_days (Day t)).2.

Definition MakeDay (year month date : Z) : Z :=
  let ym := year + month / 12 in
  let mn := month mod 12 in
  days_from_civil ym (mn + 1) 1 + date - 1.

Definition MakeDate (day time : Z) : Z := day * msPerDay + time.

Definition isLeapYear (y : Z) : bool :=
  ((y mod 4 =? 0) && negb (y mod 100 =? 0)) || (y mod 400 =? 0).

Definition daysInMonth (y m : Z) : Z :=
  if m =? 2 then (if isLeapYear y then 29 else 28)
  else if (m =? 4) || (m =? 6) || (m =? 9) || (m =? 11) then 30 else 31.

Definition digit (c : ascii) : option Z :=
  let n := Z.of_N (N_of_ascii c) in
  if (48 <=? n) && (n <=? 57) then Some (n - 48) else None.

Definition digits2 (a b : ascii) : option Z :=
  match digit a, digit b with
  | Some x, Some y => Some (10 * x + y)
  | _, _ => None
  end.

Definition digits4 (a b c d : ascii) : option Z :=
  match digits2 a b, digits2 c d with
  | Some x, Some y => Some (100 * x + y)
  | _, _ => None
  end.

(** The date-only form [YYYY-MM-DD] of the date-time string format; any
    other string is not recognised. *)
Definition parseISODate (s : string) : option (Z * Z * Z) :=
  match list_ascii_of_string s with
  | [y1; y2; y3; y4; sep1; m1; m2; sep2; d1; d2] =>
      if (Ascii.eqb sep1 "-" && Ascii.eqb sep2 "-")%bool then
        match digits4 y1 y2 y3 y4, digits2 m1 m2, digits2 d1 d2 with
        | Some y, Some m, Some d =>
            if (1 <=? m) && (m <=? 12) && (1 <=? d) && (d <=? daysInMonth y m)
            then Some (y, m, d) else None
        | _, _, _ => None
        end
      else None
  | _ => None
  end.

(** A [Date] object: its time value, [None] for an invalid date. *)
Definition Date : Type := option Z.

(** [new Date(s)]: a date-only string denotes midnight UTC. *)
Definition ofString (s : string) : Date :=
  match parseISODate s with
  | Some (y, m, d) => Some (MakeDate (MakeDay y (m - 1) d) 0)
  | None => None
  end.

(** The getters read the local time; they return an integer, or [None]
    for [NaN]. *)
Definition getFullYear (d : Date) : option Z :=
  (fun t => YearFromTime (LocalTime t)) <$> d.
Definition getMonth (d : Date) : option Z :=
  (fun t => MonthFromTime (LocalTime t)) <$> d.
Definition getDate (d : Date) : option Z :=
  (fun t => DateFromTime (LocalTime t)) <$> d.

(** [d.setDate(dt)] on a valid date of time value [t]. *)
Definition setDate (t : Z) (dt : Z) : Z :=
  let local := LocalTime t in
  UTC (MakeDate (MakeDay (YearFromTime local) (MonthFromTime local) dt)
         (TimeWithinDay local)).

(** [a === b] on two getter results: [NaN] equals nothing. *)
Definition strict_eq (a b : option Z) : bool :=
  match a, b with
  | Some x, Some y => x =? y
  | _, _ => false
  end.

(** [a >= b] on two dates, through their time values. *)
Definition geb (a b : Date) : bool :=
  match a, b with
  | Some x, Some y => y <=? x
  | _, _ => false
  end.

(** [String(n)] for a getter result. *)
Definition showNumber (n : option Z) : string :=
  match n with
  | Some z => JSString.ofZ z
  | None => "NaN"
  end.

Definition monthShort (m : Z) : string :=
  nth (Z.to_nat m)
    ["Jan"; "Feb"; "Mar"; "Apr"; "May"; "Jun";
     "Jul"; "Aug"; "Sep"; "Oct"; "Nov"; "Dec"] "".

(** [d.toLocaleDateString('en-US', { month: 'short', year: 'numeric' })] *)
Definition toMonthYear (d : Date) : string :=
  match d with
  | Some t =>
      (monthShort (MonthFromTime (LocalTime t)) ++ " " ++
       JSString.ofZ (YearFromTime (LocalTime t)))%string
  | None => "Invalid Date"
  end.

(** [d.toLocaleDateString('en-US', { month: 'short', day: 'numeric' })] *)
Definition toMonthDay (d : Date) : string :=
  match d with
  | Some t =>
      (monthShort (MonthFromTime (LocalTime t)) ++ " " ++
       JSString.ofZ (DateFromTime (LocalTime t)))%string
  | None => "Invalid Date"
  end.

End JSDate.

(** ** Array helpers *)

(** [const existing = acc.find(p); if (existing) { update existing in
    place } else { acc.push(fresh) }]: the first element satisfying [p] is
    updated where it stands, and [fresh] goes to the end when there is
    none. *)
Fixpoint find_update {A : Type} (p : A -> bool) (update : A -> A) (fresh : A)
    (acc : list A) : list A :=
  match acc with
  | [] => [fresh]
  | item :: rest =>
      if p item then update item :: rest
      else item :: find_update p update fresh rest
  end.

Fixpoint insert_by {A : Type} (cmp : A -> A -> comparison) (x : A)
    (l : list A) : list A :=
  match l with
  | [] => [x]
  | y :: l' =>
      match cmp x y with
      | Gt => y :: insert_by cmp x l'
      | _ => x :: y :: l'
      end
  end.

(** [arr.sort(cmp)]: the sort is stable, so its result is that of a stable
    insertion sort. *)
Definition sort {A : Type} (cmp : A -> A -> comparison) (arr : list A) : list A :=
  fold_right (insert_by cmp) [] arr.

(** [arr.reduce((sum, x) => sum + f(x), 0)] *)
Definition sum_by {A : Type} (f : A -> number) (arr : list A) : number :=
  fold_left (fun sum x => (sum + f x)%num) arr zero.

(** ** The chart aggregator ([ExpenseCharts.tsx]) *)

Module CategoryItem.
Record t : Type := mk {
  category : string;
  amount : number;
  percentage : number
}.
End CategoryItem.

Module MonthItem.
Record t : Type := mk {
  monthKey : string;
  month : string;
  amount : number;
  count : Z
}.
End MonthItem.

Module DayItem.
Record t : Type := mk {
  date : string;
  amount : number;
  displayDate : string
}.
End DayItem.

Module Charts.

(** *** Category distribution *)

Definition categoryStep (acc : list CategoryItem.t) (expense : Expense)
    : list CategoryItem.t :=
  find_update
    (fun item => String.eqb (CategoryItem.category item) (category expense))
    (fun existing =>
       CategoryItem.mk (CategoryItem.category existing)
         (CategoryItem.amount existing + amount expense)
         (CategoryItem.percentage existing))
    (CategoryItem.mk (category expense) (amount expense) zero)
    acc.

(** [categoryData] as the [reduce] leaves it, before the percentages
    are filled in. *)
Definition categoryGroups (expenses : list Expense) : list CategoryItem.t :=
  fold_left categoryStep expenses [].

Definition totalAmount (expenses : list Expense) : number :=
  sum_by CategoryItem.amount (categoryGroups expenses).

Definition percentageOf (total amount : number) : number :=
  if gtb total zero then ((amount / total) * ofZ 100)%num else zero.

(** [categoryData] after the [forEach] that sets each percentage. *)
Definition categoryData (expenses : list Expense) : list CategoryItem.t :=
  let total := totalAmount expenses in
  List.map
    (fun item =>
       CategoryItem.mk (CategoryItem.category item) (CategoryItem.amount item)
         (percentageOf total (CategoryItem.amount item)))
    (categoryGroups expenses).

(** *** Monthly trend *)

Definition monthKeyOf (expense : Expense) : string :=
  let date := JSDate.ofString (date expense) in
  (JSDate.showNumber (JSDate.getFullYear date) ++ "-" ++
   JSString.padStart 2 "0"
     (JSDate.showNumber ((fun m => m + 1) <$> JSDate.getMonth date)))%string.

Definition monthNameOf (expense : Expense) : string :=
  JSDate.toMonthYear (JSDate.ofString (date expense)).

Definition monthStep (acc : list MonthItem.t) (expense : Expense)
    : list MonthItem.t :=
  let monthKey := monthKeyOf expense in
  let monthName := monthNameOf expense in
  find_update
    (fun item => String.eqb (MonthItem.monthKey item) monthKey)
    (fun existing =>
       MonthItem.mk (MonthItem.monthKey existing) (MonthItem.month existing)
         (MonthItem.amount existing + amount expense)
         (MonthItem.count existing + 1))
    (MonthItem.mk monthKey monthName (amount expense) 1)
    acc.

Definition monthGroups (expenses : list Expense) : list MonthItem.t :=
  fold_left monthStep expenses [].

Definition monthlyData (expenses : list Expense) : list MonthItem.t :=
  sort
    (fun a b => JSString.localeCompare (MonthItem.monthKey a) (MonthItem.monthKey b))
    (monthGroups expenses).

(** *** Daily trend *)

(** [const d = new Date(); d.setDate(d.getDate() - 30)], the clock
    reading [now]. *)
Definition thirtyDaysAgo (now : Z) : JSDate.Date :=
  match JSDate.getDate (Some now) with
  | Some day => Some (JSDate.setDate now (day - 30))
  | None => None
  end.

Definition inLastThirtyDays (now : Z) (expense : Expense) : bool :=
  let expenseDate := JSDate.ofString (date expense) in
  JSDate.geb expenseDate (thirtyDaysAgo now).

Definition dayStep (acc : list DayItem.t) (expense : Expense)
    : list DayItem.t :=
  let dateKey := date expense in
  find_update
    (fun item => String.eqb (DayItem.date item) dateKey)
    (fun existing =>
       DayItem.mk (DayItem.date existing)
         (DayItem.amount existing + amount expense)
         (DayItem.displayDate existing))
    (DayItem.mk dateKey (amount expense)
       (JSDate.toMonthDay (JSDate.ofString dateKey)))
    acc.

Definition dayGroups (now : Z) (expenses : list Expense) : list DayItem.t :=
  fold_left dayStep (List.filter (inLastThirtyDays now) expenses) [].

Definition dailyData (now : Z) (expenses : list Expense) : list DayItem.t :=
  sort
    (fun a b => JSString.localeCompare (DayItem.date a) (DayItem.date b))
    (dayGroups now expenses).

End Charts.

(** ** Global functions *)

Module JSGlobal.

Fixpoint skip_space (s : string) : string :=
  match s with
  | String c s' => if Ascii.is_space c then skip_space s' else s
  | EmptyString => s
  end.

Definition read_sign (s : string) : bool * string :=
  match s with
  | String "-" s' => (true, s')
  | String "+" s' => (false, s')
  | _ => (false, s)
  end.

(** The leading decimal digits of [s]: their value after [acc], their
    number after [n], and the rest of the string. *)
Fixpoint read_digits (s : string) (acc : Z) (n : nat) : Z * nat * string :=
  match s with
  | String c s' =>
      match JSDate.digit c with
      | Some d => read_digits s' (10 * acc + d) (S n)
      | None => (acc, n, s)
      end
  | EmptyString => (acc, n, s)
  end.

Definition read_exponent (s : string) : Z :=
  match s with
  | String c s' =>
      if (Ascii.eqb c "e" || Ascii.eqb c "E")%bool then
        let '(negative, s'') := read_sign s' in
        let '(v, n, _) := read_digits s'' 0 0 in
        match n with
        | O => 0
        | S _ => if negative then - v else v
        end
      else 0
  | EmptyString => 0
  end.

Definition pow10 (e : Z) : Qc :=
  if 0 <=? e then Qc_of_Z (10 ^ e) else (/ Qc_of_Z (10 ^ (- e)))%Qc.

(** [parseFloat(s)]: the longest prefix of [s] that is a decimal
    literal, [NaN] when there is none. *)
Definition parseFloat (s : string) : number :=
  let '(negative, s1) := read_sign (skip_space s) in
  if String.prefix "Infinity" s1 then
    if negative then NegInfinity else PosInfinity
  else
    let '(ip, n1, s2) := read_digits s1 0 0 in
    let '(fp, n2, s3) :=
      match s2 with
      | String "." s2' => read_digits s2' 0 0
      | _ => (0, O, s2)
      end in
    match (n1 + n2)%nat with
    | O => NaN
    | S _ =>
        let mantissa :=
          (Qc_of_Z ip + Qc_of_Z fp / Qc_of_Z (10 ^ Z.of_nat n2))%Qc in
        let v := (mantissa * pow10 (read_exponent s3))%Qc in
        Num (if negative then (- v)%Qc else v)
    end.

(** Truthiness of a string: only the empty string is falsy. *)
Definition truthy (s : string) : bool := negb (String.eqb s "").

(** A value of type [string | null] used as a condition: the string
    when it is truthy. *)
Definition whenTruthy (s : option string) : option string :=
  match s with
  | Some s => if truthy s then Some s else None
  | None => None
  end.

(** [new Date(t).toISOString().split('T')[0]] *)
Definition toISODate (t : Z) : string :=
  let '(y, m, d) := JSDate.civil_from_days (JSDate.Day t) in
  let year :=
    if ((0 <=? y) && (y <=? 9999))%Z then JSString.padStart 4 "0" (JSString.ofZ y)
    else ((if (y <? 0)%Z then "-" else "+") ++
          JSString.padStart 6 "0" (JSString.ofZ (Z.abs y)))%string in
  (year ++ "-" ++ JSString.padStart 2 "0" (JSString.ofZ m) ++ "-" ++
   JSString.padStart 2 "0" (JSString.ofZ d))%string.

End JSGlobal.

(** ** The expense calculator ([ExpenseCalculator.tsx]) *)

Module Form.
Record t : Type := mk {
  amount : string;
  category : string;
  description : string;
  date : string
}.
End Form.

Module Toast.
Record t : Type := mk {
  title : string;
  description : string;
  variant : option string
}.
End Toast.

Definition EXPENSE_CATEGORIES : list string :=
  ["Food & Dining"; "Transportation"; "Shopping"; "Entertainment";
   "Bills & Utilities"; "Healthcare"; "Travel"; "Education"; "Business";
   "Other"].

(** *** Values derived on each render

    The two variants of the component compute them by the same
    expressions. *)

Module Summary.

Definition filteredExpenses (filterCategory : string)
    (expenses : list Expense) : list Expense :=
  if String.eqb filterCategory "all" then expenses
  else List.filter (fun exp => String.eqb (category exp) filterCategory) expenses.

Definition totalAmount (filterCategory : string) (expenses : list Expense)
    : number :=
  sum_by amount (filteredExpenses filterCategory expenses).

(** [acc[key] || 0] *)
Definition lookup_or_zero (acc : gmap string number) (key : string) : number :=
  match acc !! key with
  | Some v => or_else v zero
  | None => zero
  end.

(** [acc[exp.category] = (acc[exp.category] || 0) + exp.amount] *)
Definition addToCategory (acc : gmap string number) (exp : Expense)
    : gmap string number :=
  <[category exp := (lookup_or_zero acc (category exp) + amount exp)%num]> acc.

(** The accumulator object is a map from category to number; property
    names inherited from the object prototype are outside the model. *)
Definition categoryTotals (expenses : list Expense) : gmap string number :=
  fold_left addToCategory expenses ∅.

(** The "This Month" card, the clock reading [now]. *)
Definition thisMonth (now : Z) (expenses : list Expense) : number :=
  sum_by amount
    (List.filter
       (fun exp =>
          JSDate.strict_eq (JSDate.getMonth (JSDate.ofString (date exp)))
            (JSDate.getMonth (Some now)))
       expenses).

(** The share shown for an entry of the category breakdown:
    [(amount / totalAmount) * 100]. *)
Definition breakdownShare (totalAmount amount : number) : number :=
  ((amount / totalAmount) * ofZ 100)%num.

(** The entries of the category breakdown, rendered only when
    [categoryTotals] has a key: category, amount and share. The order of
    [Object.entries] is left unspecified. *)
Definition categoryBreakdown (filterCategory : string)
    (expenses : list Expense) : list (string * number * number) :=
  let total := totalAmount filterCategory expenses in
  (fun entry => (entry.1, entry.2, breakdownShare total entry.2))
    <$> map_to_list (categoryTotals expenses).

End Summary.

(** *** Handlers as programs

    A handler performs requests on its environment (the clock, the
    notification area, the router and the remote store) and continues with
    the reply. *)

(** A row sent to the remote store. *)
Module Row.
Record t : Type := mk {
  amount : number;
  category : string;
  description : string;
  date : string
}.
End Row.

Inductive Request : Type :=
| DateNow
| ShowToast (t : Toast.t)
| Navigate (path : string)
| AuthGetUser
| AuthSignOut
| SelectExpenses
| InsertExpense (row : Row.t) (user_id : string)
| UpdateExpense (row : Row.t) (id : string)
| DeleteExpense (id : string).

(** An awaited call either resolves to a value or rejects. *)
Inductive Outcome (T : Type) : Type :=
| Fulfilled (value : T)
| Rejected.
Arguments Fulfilled {T} value.
Arguments Rejected {T}.

(** What each request replies: the time in milliseconds; nothing; the
    current user's identifier or [null]; an optional error; the selected
    rows (or [null]) with an optional error. *)
Definition Reply (r : Request) : Type :=
  match r with
  | DateNow => Z
  | ShowToast _ | Navigate _ => unit
  | AuthGetUser => Outcome (option string)
  | SelectExpenses => Outcome (option (list Expense) * option string)
  | AuthSignOut | InsertExpense _ _ | UpdateExpense _ _ | DeleteExpense _ =>
      Outcome (option string)
  end.

Inductive Prog (A : Type) : Type :=
| Ret (a : A)
| Do (r : Request) (k : Reply r -> Prog A).
Arguments Ret {A} a.
Arguments Do {A} r k.

Fixpoint bind {A B : Type} (p : Prog A) (f : A -> Prog B) : Prog B :=
  match p with
  | Ret a => f a
  | Do r k => Do r (fun x => bind (k x) f)
  end.

Definition perform (r : Request) : Prog (Reply r) := Do r Ret.

#[global] Instance Prog_ret : MRet Prog := @Ret.
#[global] Instance Prog_bind : MBind Prog := fun A B f p => bind p f.

Definition toast (t : Toast.t) : Prog unit := perform (ShowToast t).

(** Running a program against an environment with state [W]: the result,
    the final environment and the requests performed, in order. *)
Section Run.
Context {W : Type} (env : forall r : Request, W -> Reply r * W).

Fixpoint run {A : Type} (p : Prog A) (w : W) : A * W * list Request :=
  match p with
  | Ret a => (a, w, [])
  | Do r k =>
      let reply := env r w in
      let rest := run (k reply.1) reply.2 in
      (rest.1.1, rest.1.2, r :: rest.2)
  end.
End Run.

Definition isRemote (r : Request) : bool :=
  match r with
  | DateNow | ShowToast _ | Navigate _ => false
  | _ => true
  end.

Definition validationError : Toast.t :=
  Toast.mk "Validation Error" "Please fill in all required fields."
    (Some "destructive").

Definition success (message : string) : Toast.t :=
  Toast.mk "Success" message None.

Definition failure (message : string) : Toast.t :=
  Toast.mk "Error" message (Some "destructive").

Definition missingField (form : Form.t) : bool :=
  negb (JSGlobal.truthy (Form.amount form))
  || negb (JSGlobal.truthy (Form.category form))
  || negb (JSGlobal.truthy (Form.description form)).

Definition emptyForm (now : Z) : Form.t :=
  Form.mk "" "" "" (JSGlobal.toISODate now).

(** *** The local variant *)

Module Local.

Record State : Type := mkState {
  expenses : list Expense;
  form : Form.t;
  editingId : option string;
  filterCategory : string
}.

Definition initial (now : Z) : State :=
  mkState [] (emptyForm now) None "all".

Definition setExpenses (f : list Expense -> list Expense) (s : State) : State :=
  mkState (f (expenses s)) (form s) (editingId s) (filterCategory s).
Definition setForm (f : Form.t) (s : State) : State :=
  mkState (expenses s) f (editingId s) (filterCategory s).
Definition setEditingId (i : option string) (s : State) : State :=
  mkState (expenses s) (form s) i (filterCategory s).
Definition setFilterCategory (c : string) (s : State) : State :=
  mkState (expenses s) (form s) (editingId s) c.

Definition handleSubmit (s : State) : Prog State :=
  let form := form s in
  let editingId := JSGlobal.whenTruthy (editingId s) in
  if missingField form then
    toast validationError;;
    Ret s
  else
    newId ← match editingId with
            | Some i => Ret i
            | None => now ← perform DateNow; Ret (JSString.ofZ now)
            end;
    let expense :=
      mkExpense newId (JSGlobal.parseFloat (Form.amount form))
        (Form.category form) (Form.description form) (Form.date form) in
    s ← match editingId with
        | Some i =>
            let s :=
              setExpenses
                (List.map (fun exp => if String.eqb (id exp) i then expense else exp))
                s in
            let s := setEditingId None s in
            toast (success "Expense updated successfully!");;
            Ret s
        | None =>
            let s := setExpenses (fun prev => (prev ++ [expense])%list) s in
            toast (success "Expense added successfully!");;
            Ret s
        end;
    now ← perform DateNow;
    Ret (setForm (emptyForm now) s).

(** [toString] renders the amount for the form field. *)
Definition handleEdit (toString : number -> string) (expense : Expense)
    (s : State) : State :=
  let s :=
    setForm
      (Form.mk (toString (amount expense)) (category expense)
         (description expense) (date expense))
      s in
  setEditingId (Some (id expense)) s.

Definition handleDelete (target : string) (s : State) : Prog State :=
  let s :=
    setExpenses (List.filter (fun exp => negb (String.eqb (id exp) target))) s in
  toast (success "Expense deleted successfully!");;
  Ret s.

End Local.

(** *** The persisted variant

    The records live in a remote store; every mutation is a remote call
    followed by a reload of the whole list. *)

Module Persisted.

Record State : Type := mkState {
  expenses : list Expense;
  form : Form.t;
  editingId : option string;
  filterCategory : string;
  loading : bool
}.

Definition initial (now : Z) : State :=
  mkState [] (emptyForm now) None "all" true.

Definition setExpenses (l : list Expense) (s : State) : State :=
  mkState l (form s) (editingId s) (filterCategory s) (loading s).
Definition setForm (f : Form.t) (s : State) : State :=
  mkState (expenses s) f (editingId s) (filterCategory s) (loading s).
Definition setEditingId (i : option string) (s : State) : State :=
  mkState (expenses s) (form s) i (filterCategory s) (loading s).
Definition setLoading (b : bool) (s : State) : State :=
  mkState (expenses s) (form s) (editingId s) (filterCategory s) b.

Definition loadExpenses (s : State) : Prog State :=
  r ← perform AuthGetUser;
  s ← match r with
      | Rejected =>
          toast (failure "An unexpected error occurred while loading expenses");;
          Ret s
      | Fulfilled None =>
          perform (Navigate "/login");;
          Ret s
      | Fulfilled (Some _) =>
          r ← perform SelectExpenses;
          match r with
          | Rejected =>
              toast (failure "An unexpected error occurred while loading expenses");;
              Ret s
          | Fulfilled (_, Some message) =>
              toast (failure ("Failed to load expenses: " ++ message)%string);;
              Ret s
          | Fulfilled (data, None) =>
              Ret (setExpenses (default [] data) s)
          end
      end;
  Ret (setLoading false s).

Definition handleLogout (s : State) : Prog State :=
  r ← perform AuthSignOut;
  match r with
  | Rejected =>
      toast (failure "An unexpected error occurred");;
      Ret s
  | Fulfilled (Some message) =>
      toast (Toast.mk "Logout Failed" message (Some "destructive"));;
      Ret s
  | Fulfilled None =>
      toast (success "Logged out successfully!");;
      perform (Navigate "/login");;
      Ret s
  end.

(** The tail of a successful submission: reload, then reset the form. *)
Definition reloadAndReset (s : State) : Prog State :=
  s ← loadExpenses s;
  now ← perform DateNow;
  Ret (setForm (emptyForm now) s).

Definition handleSubmit (s : State) : Prog State :=
  let form := form s in
  if missingField form then
    toast validationError;;
    Ret s
  else
    let row :=
      Row.mk (JSGlobal.parseFloat (Form.amount form)) (Form.category form)
        (Form.description form) (Form.date form) in
    match JSGlobal.whenTruthy (editingId s) with
    | Some i =>
        r ← perform (UpdateExpense row i);
        match r with
        | Rejected =>
            toast (failure "An unexpected error occurred");;
            Ret s
        | Fulfilled (Some message) =>
            toast (failure ("Failed to update expense: " ++ message)%string);;
            Ret s
        | Fulfilled None =>
            toast (success "Expense updated successfully!");;
            reloadAndReset (setEditingId None s)
        end
    | None =>
        r ← perform AuthGetUser;
        match r with
        | Rejected =>
            toast (failure "An unexpected error occurred");;
            Ret s
        | Fulfilled None =>
            perform (Navigate "/login");;
            Ret s
        | Fulfilled (Some user) =>
            r ← perform (InsertExpense row user);
            match r with
            | Rejected =>
                toast (failure "An unexpected error occurred");;
                Ret s
            | Fulfilled (Some message) =>
                toast (failure ("Failed to add expense: " ++ message)%string);;
                Ret s
            | Fulfilled None =>
                toast (success "Expense added successfully!");;
                reloadAndReset s
            end
        end
    end.

Definition handleDelete (target : string) (s : State) : Prog State :=
  r ← perform (DeleteExpense target);
  match r with
  | Rejected =>
      toast (failure "An unexpected error occurred while deleting expense");;
      Ret s
  | Fulfilled (Some message) =>
      toast (failure ("Failed to delete expense: " ++ message)%string);;
      Ret s
  | Fulfilled None =>
      toast (success "Expense deleted successfully!");;
      loadExpenses s
  end.

End Persisted.

(** [handleEdit] of the persisted variant, the same as in the local one. *)
Module PersistedEdit.
Import Persisted.

(** [toString] renders the amount for the form field. *)
Definition handleEdit (toString : number -> string) (expense : Expense)
    (s : State) : State :=
  let s :=
    setForm
      (Form.mk (toString (amount expense)) (category expense)
         (description expense) (date expense))
      s in
  setEditingId (Some (id expense)) s.

End PersistedEdit.

(** ** The top spending categories ([ExpenseCharts.tsx]) *)

Module TopCategories.

(** [x - y] *)
Definition sub (x y : number) : number := (x + neg y)%num.

(** How [sort] reads the number a comparator returns: negative puts the
    first argument first, positive the second, and zero or [NaN] leaves
    the two in their order. *)
Definition ordering (v : number) : comparison :=
  if gtb zero v then Lt else if gtb v zero then Gt else Eq.

(** [(a, b) => b.amount - a.amount] *)
Definition byAmountDescending (a b : CategoryItem.t) : comparison :=
  ordering (sub (CategoryItem.amount b) (CategoryItem.amount a)).

(** [categoryData.sort((a, b) => b.amount - a.amount).slice(0, 5)] *)
Definition topCategories (expenses : list Expense) : list CategoryItem.t :=
  firstn 5 (sort byAmountDescending (Charts.categoryData expenses)).

End TopCategories.

(** ** The login form (mock authentication) *)

Module Login.

Record State : Type := mkState {
  userId : string;
  password : string;
  isLoading : bool
}.

(** What the handler does to its surroundings: a notification, a write to
    the local storage of the browser, a navigation. *)
Inductive Effect : Type :=
| Toasted (t : Toast.t)
| LocalStorageSetItem (key value : string)
| Navigated (path : string).

(** [setTimeout(callback, delay)]: the callback runs on the state of the
    time it fires. *)
Record Timer : Type := mkTimer {
  delay : Z;
  callback : State -> State * list Effect
}.

Definition setIsLoading (b : bool) (s : State) : State :=
  mkState (userId s) (password s) b.

(** The state and the effects when the handler returns, and the timer it
    has set. The callback reads the identifier and the password of the
    render that set it. *)
Definition handleLogin (s : State) : State * list Effect * option Timer :=
  let userId := userId s in
  let password := password s in
  let s := setIsLoading true s in
  if negb (JSGlobal.truthy userId) || negb (JSGlobal.truthy password) then
    (setIsLoading false s,
     [Toasted (failure "Please enter both User ID and Password")],
     None)
  else
    (s, [],
     Some (mkTimer 1000 (fun later =>
       let effects :=
         if String.eqb userId "admin" && String.eqb password "password" then
           [LocalStorageSetItem "isLoggedIn" "true";
            LocalStorageSetItem "userId" userId;
            Toasted (success "Login successful!");
            Navigated "/"]
         else
           [Toasted (failure "Invalid User ID or Password")] in
       (setIsLoading false later, effects)))).

(** The handler followed by its timer, if any, with no other event in
    between. *)
Definition login (s : State) : State * list Effect :=
  match handleLogin s with
  | (s', effects, Some timer) =>
      let fired := callback timer s' in
      (fired.1, effects ++ fired.2)
  | (s', effects, None) => (s', effects)
  end.

End Login.

(** ** Vocabulary of the specification *)

(** The sum of the values of a dictionary of per-category totals. *)
Definition sumOfTotals (totals : gmap string number) : number :=
  map_fold (fun _ v sum => (sum + v)%num) zero totals.

(** Every amount is an ordinary (finite) number. *)
Definition finiteAmounts (expenses : list Expense) : Prop :=
  Forall (fun exp => isFinite (amount exp) = true) expenses.

(** Every amount is a non-negative finite number, as the data model asks. *)
Definition nonNegative (x : number) : Prop :=
  match x with
  | Num q => (0 <= q)%Qc
  | _ => False
  end.

Definition nonNegativeAmounts (expenses : list Expense) : Prop :=
  Forall (fun exp => nonNegative (amount exp)) expenses.

(** Pairwise-distinct identifiers. *)
Definition uniqueIds (expenses : list Expense) : Prop :=
  NoDup (List.map id expenses).

(** One step of a grouping [reduce]: the item whose key is that of the
    element is updated, or a fresh item is pushed. *)
Definition groupStep {E I : Type} (ekey : E -> string) (ikey : I -> string)
    (fresh : E -> I) (update : I -> E -> I) (acc : list I) (e : E) : list I :=
  find_update (fun item => String.eqb (ikey item) (ekey e))
    (fun existing => update existing e) (fresh e) acc.

(** The first item of a given key. *)
Definition findKey {I : Type} (ikey : I -> string) (k : string) (l : list I)
    : option I :=
  List.find (fun item => String.eqb (ikey item) k) l.

(** The elements of a given key, in their order. *)
Definition withKey {E : Type} (ekey : E -> string) (k : string) (l : list E)
    : list E :=
  List.filter (fun e => String.eqb (ekey e) k) l.

(** The records of a category, in their order. *)
Definition ofCategory (c : string) (expenses : list Expense) : list Expense :=
  withKey category c expenses.

(** The calendar month, from 1, of a time value in local time. *)
Definition calendarMonth (t : Z) : Z :=
  (JSDate.civil_from_days (JSDate.Day (JSDate.LocalTime t))).1.2.

(** The key of a calendar month: the year, a hyphen and the month on two
    digits. *)
Definition yearMonth (y m : Z) : string :=
  (JSString.ofZ y ++ "-" ++ JSString.padStart 2 "0" (JSString.ofZ m))%string.

(** Equality of two arrays of numbers. *)
Fixpoint numbers_eqb (l1 l2 : list number) : bool :=
  match l1, l2 with
  | [], [] => true
  | x :: l1, y :: l2 => JSNumber.eqb x y && numbers_eqb l1 l2
  | _, _ => false
  end.

(** Every total of a dictionary is an ordinary (finite) number. *)
Definition finiteTotals (m : gmap string number) : Prop :=
  map_Forall (fun _ v => isFinite v = true) m.

(** The result of a handler and the requests it performs, in a given
    environment. *)
Definition outcome {W A : Type} (env : forall r : Request, W -> Reply r * W)
    (p : Prog A) (w : W) : A :=
  (run env p w).1.1.

Definition requests {W A : Type} (env : forall r : Request, W -> Reply r * W)
    (p : Prog A) (w : W) : list Request :=
  (run env p w).2.

(** Order on ordinary numbers. *)
Definition numLe (x y : number) : Prop :=
  match x, y with
  | Num a, Num b => (a <= b)%Qc
  | _, _ => False
  end.

(** The keys of a list, each at its first occurrence. *)
Fixpoint firstOccurrences (keys : list string) : list string :=
  match keys with
  | [] => []
  | k :: rest =>
      k :: List.filter (fun k' => negb (String.eqb k' k)) (firstOccurrences rest)
  end.

(** The sum of the record counts of the monthly groups. *)
Definition totalCount (groups : list MonthItem.t) : Z :=
  fold_left (fun n item => n + MonthItem.count item) groups 0.

(** The row that the persisted variant sends for a form. *)
Definition rowOfForm (form : Form.t) : Row.t :=
  Row.mk (JSGlobal.parseFloat (Form.amount form)) (Form.category form)
    (Form.description form) (Form.date form).

(** The requests that change the remote store or the session. *)
Definition isWrite (r : Request) : bool :=
  match r with
  | InsertExpense _ _ | UpdateExpense _ _ | DeleteExpense _ | AuthSignOut => true
  | _ => false
  end.

(** The date of the record is not a valid date. *)
Definition hasInvalidDate (exp : Expense) : bool :=
  match JSDate.ofString (date exp) with
  | Some _ => false
  | None => true
  end.

(** The requests that show a notification. *)
Definition isToast (r : Request) : bool :=
  match r with
  | ShowToast _ => true
  | _ => false
  end.

(** The notifications of success. *)
Definition isSuccess (r : Request) : bool :=
  match r with
  | ShowToast t => String.eqb (Toast.title t) "Success"
  | _ => false
  end.

(** The notifications among the effects of the login form. *)
Definition isToasted (e : Login.Effect) : bool :=
  match e with
  | Login.Toasted _ => true
  | _ => false
  end.

(** The effects by which the login form signs the user in. *)
Definition signsIn (e : Login.Effect) : bool :=
  match e with
  | Login.LocalStorageSetItem _ _ | Login.Navigated _ => true
  | Login.Toasted _ => false
  end.

(** *** Sample data *)

Definition lunch : Expense :=
  mkExpense "1704450000000" (ofZ 100) "Food & Dining" "lunch" "2024-01-05".
Definition busPass : Expense :=
  mkExpense "1705750000000" (ofZ 30) "Transportation" "bus pass" "2024-01-20".
Definition groceries : Expense :=
  mkExpense "1707560000000" (ofZ 50) "Food & Dining" "groceries" "2024-02-10".
(** The example of the specification. *)
Definition specExample : list Expense :=
  [mkExpense "1704450000000" (ofZ 100) "Food" "lunch" "2024-01-05";
   mkExpense "1707560000000" (ofZ 50) "Food" "groceries" "2024-02-10";
   mkExpense "1705750000000" (ofZ 30) "Transport" "bus pass" "2024-01-20"].

(** A record dated three months after 2024-03-09T16:00:00Z, the time
    1710000000000. *)
Definition conference : Expense :=
  mkExpense "1709990000000" (ofZ 450) "Travel" "conference ticket" "2024-06-15".

(** A record dated a year before March 2024. *)
Definition lastYear : Expense :=
  mkExpense "1678700000000" (ofZ 75) "Healthcare" "dentist" "2023-03-13".

Definition freeSample : Expense :=
  mkExpense "1704460000000" (JSGlobal.parseFloat "0") "Food & Dining"
    "free sample" "2024-01-05".

Definition filled : Form.t :=
  Form.mk "12.50" "Food & Dining" "lunch" "2024-01-05".

(** A form whose amount is empty. *)
Definition blank : Form.t :=
  Form.mk "" "Food & Dining" "lunch" "2024-01-05".

(** Two records and a filled form, no edit in progress. *)
Definition adding : Local.State :=
  Local.mkState [lunch; busPass] filled None "all".

(** The same records, the first of them under edit. *)
Definition editing : Local.State :=
  Local.mkState [lunch; busPass]
    (Form.mk "120" "Food & Dining" "team lunch" "2024-01-06")
    (Some "1704450000000") "all".

(** An environment whose state is the clock: reading the clock advances
    it by a millisecond, and every remote call rejects. *)
Definition offline (r : Request) (clock : Z) : Reply r * Z :=
  match r with
  | DateNow => (clock, clock + 1)
  | ShowToast _ | Navigate _ => (tt, clock)
  | AuthGetUser => (Rejected, clock)
  | SelectExpenses => (Rejected, clock)
  | AuthSignOut | InsertExpense _ _ | UpdateExpense _ _ | DeleteExpense _ =>
      (Rejected, clock)
  end.

(** An environment whose clock stands still. *)
Definition frozen (r : Request) (clock : Z) : Reply r * Z :=
  match r with
  | DateNow => (clock, clock)
  | ShowToast _ | Navigate _ => (tt, clock)
  | AuthGetUser => (Rejected, clock)
  | SelectExpenses => (Rejected, clock)
  | AuthSignOut | InsertExpense _ _ | UpdateExpense _ _ | DeleteExpense _ =>
      (Rejected, clock)
  end.

(** The persisted variant with a filled form, no edit in progress. *)
Definition persistedAdding : Persisted.State :=
  Persisted.mkState [lunch] filled None "all" false.

(** The persisted variant with the first of two records under edit. *)
Definition persistedEditing : Persisted.State :=
  Persisted.mkState [lunch; busPass]
    (Form.mk "120" "Food & Dining" "team lunch" "2024-01-06")
    (Some "1704450000000") "all" false.

(** The record that a remote store keeps for a row, under an identifier. *)
Definition stored (newId : string) (row : Row.t) : Expense :=
  match row with
  | Row.mk rowAmount rowCategory rowDescription rowDate =>
      mkExpense newId rowAmount rowCategory rowDescription rowDate
  end.

(** A remote store that works: the state is the clock and the stored
    rows; [user] is the signed-in user, if any. An inserted row takes the
    clock reading as its identifier. *)
Definition online (user : option string) (r : Request)
    (w : Z * list Expense) : Reply r * (Z * list Expense) :=
  match r return Reply r * (Z * list Expense) with
  | DateNow => (w.1, (w.1 + 1, w.2))
  | ShowToast _ | Navigate _ => (tt, w)
  | AuthGetUser => (Fulfilled user, w)
  | AuthSignOut => (Fulfilled None, w)
  | SelectExpenses => (Fulfilled (Some w.2, None), w)
  | InsertExpense row _ =>
      (Fulfilled None, (w.1 + 1, w.2 ++ [stored (JSString.ofZ w.1) row]))
  | UpdateExpense row i =>
      (Fulfilled None,
       (w.1,
        List.map
          (fun exp => if String.eqb (id exp) i then stored i row else exp)
          w.2))
  | DeleteExpense i =>
      (Fulfilled None,
       (w.1, List.filter (fun exp => negb (String.eqb (id exp) i)) w.2))
  end.

(** A remote store that answers every write with an error message. *)
Definition readOnly (r : Request) (clock : Z) : Reply r * Z :=
  match r with
  | DateNow => (clock, clock + 1)
  | ShowToast _ | Navigate _ => (tt, clock)
  | AuthGetUser => (Fulfilled (Some "user-1"), clock)
  | SelectExpenses => (Fulfilled (Some [], None), clock)
  | AuthSignOut | InsertExpense _ _ | UpdateExpense _ _ | DeleteExpense _ =>
      (Fulfilled (Some "permission denied"), clock)
  end.

(** * Properties *)

(** ** Numbers *)

Section NumberFacts.

Lemma number_eqb_eq (x y : number) : JSNumber.eqb x y = true <-> x = y.
Proof.
  destruct x as [a| | |], y as [b| | |]; simpl; split; try done.
  - intros H%Qeq_bool_iff. f_equal. by apply Qc_is_canon.
  - intros [= ->]. by apply Qeq_bool_iff.
Qed.

Lemma number_eq (x y : number) : JSNumber.eqb x y = true -> x = y.
Proof. apply number_eqb_eq. Qed.

Lemma number_neq (x y : number) : JSNumber.eqb x y = false -> x <> y.
Proof. intros H Heq. apply number_eqb_eq in Heq. congruence. Qed.

Lemma numbers_eq (l1 l2 : list number) : numbers_eqb l1 l2 = true -> l1 = l2.
Proof.
  revert l2. induction l1 as [|x l1 IH]; intros [|y l2]; cbn [numbers_eqb];
    try done.
  intros [Hx Hl]%andb_prop. f_equal; [by apply number_eq|by apply IH].
Qed.

Lemma add_comm (x y : number) : (x + y)%num = (y + x)%num.
Proof.
  destruct x, y; simpl; try done. f_equal. apply Qcplus_comm.
Qed.

Lemma add_assoc (x y z : number) : (x + (y + z))%num = (x + y + z)%num.
Proof.
  destruct x, y, z; simpl; try done. f_equal. apply Qcplus_assoc.
Qed.

Lemma add_zero_l (x : number) : (zero + x)%num = x.
Proof.
  destruct x; simpl; try done. f_equal.
  rewrite Z2Qc_inj_0. apply Qcplus_0_l.
Qed.

Lemma add_zero_r (x : number) : (x + zero)%num = x.
Proof. rewrite add_comm. apply add_zero_l. Qed.

Lemma add_finite (x y : number) :
  isFinite x = true -> isFinite y = true -> isFinite (x + y)%num = true.
Proof. by destruct x, y. Qed.

Lemma add_nonNegative (x y : number) :
  nonNegative x -> nonNegative y -> nonNegative (x + y)%num.
Proof.
  destruct x as [a| | |], y as [b| | |]; simpl; try done.
  intros Ha Hb. rewrite <- (Qcplus_0_l 0). by apply Qcplus_le_compat.
Qed.

Lemma nonNegative_finite (x : number) : nonNegative x -> isFinite x = true.
Proof. by destruct x. Qed.

Lemma zero_nonNegative : nonNegative zero.
Proof. simpl. rewrite Z2Qc_inj_0. apply Qcle_refl. Qed.

Lemma or_else_zero_finite (x : number) :
  isFinite x = true -> or_else x zero = x.
Proof.
  destruct x as [a| | |]; try done. intros _.
  unfold or_else, truthy, sign.
  destruct (a ?= Qc_of_Z 0)%Qc eqn:E; try done.
  apply Qceq_alt in E. by rewrite E.
Qed.

End NumberFacts.

(** ** Sums over arrays *)

Section SumFacts.
Context {A : Type} (f : A -> number).

Lemma fold_add_init (l : list A) (x : number) :
  fold_left (fun sum a => (sum + f a)%num) l x = (x + sum_by f l)%num.
Proof.
  unfold sum_by. revert x.
  induction l as [|a l IH]; intros x; cbn [fold_left].
  - by rewrite add_zero_r.
  - rewrite IH, (IH (zero + f a)%num), add_zero_l. symmetry. apply add_assoc.
Qed.

Lemma sum_by_nil : sum_by f [] = zero.
Proof. done. Qed.

Lemma sum_by_cons (a : A) (l : list A) :
  sum_by f (a :: l) = (f a + sum_by f l)%num.
Proof.
  unfold sum_by at 1. cbn [fold_left]. by rewrite fold_add_init, add_zero_l.
Qed.

Lemma sum_by_app (l1 l2 : list A) :
  sum_by f (l1 ++ l2) = (sum_by f l1 + sum_by f l2)%num.
Proof.
  induction l1 as [|a l1 IH]; cbn [app].
  - by rewrite sum_by_nil, add_zero_l.
  - by rewrite !sum_by_cons, IH, add_assoc.
Qed.

Lemma sum_by_Permutation (l1 l2 : list A) :
  Permutation l1 l2 -> sum_by f l1 = sum_by f l2.
Proof.
  induction 1 as [|a l1 l2 _ IH|a b l|l1 l2 l3 _ IH1 _ IH2].
  - done.
  - by rewrite !sum_by_cons, IH.
  - rewrite !sum_by_cons, !add_assoc. f_equal. apply add_comm.
  - by rewrite IH1.
Qed.

Lemma sum_by_finite (l : list A) :
  Forall (fun a => isFinite (f a) = true) l -> isFinite (sum_by f l) = true.
Proof.
  induction 1 as [|a l Ha _ IH]; [done|].
  rewrite sum_by_cons. by apply add_finite.
Qed.

Lemma sum_by_nonNegative (l : list A) :
  Forall (fun a => nonNegative (f a)) l -> nonNegative (sum_by f l).
Proof.
  induction 1 as [|a l Ha _ IH]; [apply zero_nonNegative|].
  rewrite sum_by_cons. by apply add_nonNegative.
Qed.

(** Splitting a sum by a predicate. *)
Lemma sum_by_partition (p : A -> bool) (l : list A) :
  sum_by f l =
  (sum_by f (List.filter p l) + sum_by f (List.filter (fun a => negb (p a)) l))%num.
Proof.
  induction l as [|a l IH]; cbn [List.filter].
  - by rewrite sum_by_nil, add_zero_l.
  - rewrite sum_by_cons, IH. destruct (p a); cbn [negb]; rewrite sum_by_cons.
    + by rewrite add_assoc.
    + rewrite !add_assoc. f_equal. apply add_comm.
Qed.

End SumFacts.

Lemma sum_by_map {A B : Type} (f : B -> number) (g : A -> B) (l : list A) :
  sum_by f (List.map g l) = sum_by (fun a => f (g a)) l.
Proof.
  induction l as [|a l IH]; [done|].
  cbn [List.map]. by rewrite !sum_by_cons, IH.
Qed.


(** ** Grouping by a key *)

Section GroupBy.
Context {E I : Type} (ekey : E -> string) (ikey : I -> string).
Context (fresh : E -> I) (update : I -> E -> I).
Hypothesis ikey_fresh : forall e, ikey (fresh e) = ekey e.
Hypothesis ikey_update : forall i e, ikey (update i e) = ikey i.

Local Abbreviation step := (groupStep ekey ikey fresh update).

Lemma findKey_step (k : string) (acc : list I) (e : E) :
  findKey ikey k (step acc e) =
  if String.eqb (ekey e) k
  then Some (match findKey ikey k acc with
             | Some item => update item e
             | None => fresh e
             end)
  else findKey ikey k acc.
Proof.
  unfold groupStep, findKey.
  induction acc as [|item rest IH]; cbn [find_update List.find].
  - rewrite ikey_fresh. by destruct (String.eqb (ekey e) k).
  - destruct (String.eqb (ikey item) (ekey e)) eqn:Hit.
    + apply String.eqb_eq in Hit. cbn [List.find].
      rewrite ikey_update, Hit.
      by destruct (String.eqb (ekey e) k).
    + cbn [List.find]. rewrite IH.
      destruct (String.eqb (ikey item) k) eqn:Hk; [|done].
      apply String.eqb_eq in Hk. subst k.
      rewrite String.eqb_sym in Hit. by rewrite Hit.
Qed.

Lemma keys_step (acc : list I) (e : E) :
  List.map ikey (step acc e) =
  List.map ikey acc ++
  (if existsb (String.eqb (ekey e)) (List.map ikey acc) then [] else [ekey e]).
Proof.
  unfold groupStep.
  induction acc as [|item rest IH]; cbn [find_update List.map existsb app].
  - by rewrite ikey_fresh.
  - rewrite (String.eqb_sym (ekey e)).
    destruct (String.eqb (ikey item) (ekey e)); cbn [List.map orb].
    + by rewrite ikey_update, app_nil_r.
    + by rewrite IH.
Qed.

Lemma existsb_eqb_In (k : string) (l : list string) :
  existsb (String.eqb k) l = true <-> In k l.
Proof.
  rewrite existsb_exists. split.
  - by intros (x & Hx & ->%String.eqb_eq).
  - intros Hk. exists k. by rewrite String.eqb_refl.
Qed.

Lemma keys_step_NoDup (acc : list I) (e : E) :
  NoDup (List.map ikey acc) -> NoDup (List.map ikey (step acc e)).
Proof.
  intros Hnd. rewrite keys_step.
  destruct (existsb _ _) eqn:Hex; [by rewrite app_nil_r|].
  apply NoDup_app. split_and!; [done| |apply NoDup_singleton].
  intros k Hk ->%list_elem_of_singleton.
  apply list_elem_of_In, existsb_eqb_In in Hk. congruence.
Qed.

Lemma keys_step_In (k : string) (acc : list I) (e : E) :
  In k (List.map ikey (step acc e)) <-> In k (List.map ikey acc) \/ k = ekey e.
Proof.
  rewrite keys_step, in_app_iff.
  destruct (existsb _ _) eqn:Hex; simpl.
  - apply existsb_eqb_In in Hex. split; [tauto|].
    intros [?| ->]; tauto.
  - split; [intros [?|[<-|[]]]; tauto|]. intros [?| ->]; tauto.
Qed.

Lemma keys_fold_NoDup (es : list E) (acc : list I) :
  NoDup (List.map ikey acc) -> NoDup (List.map ikey (fold_left step es acc)).
Proof.
  revert acc. induction es as [|e es IH]; intros acc Hnd; [done|].
  cbn [fold_left]. by apply IH, keys_step_NoDup.
Qed.

Lemma keys_fold_In (k : string) (es : list E) (acc : list I) :
  In k (List.map ikey (fold_left step es acc)) <->
  In k (List.map ikey acc) \/ In k (List.map ekey es).
Proof.
  revert acc. induction es as [|e es IH]; intros acc; cbn [fold_left List.map].
  - simpl. tauto.
  - rewrite IH, keys_step_In. simpl. intuition (subst; auto).
Qed.

(** What the [reduce] leaves under a key: the item already there, or a
    fresh one for the first element of the key, updated with every later
    element of the key. *)
Lemma findKey_fold (k : string) (es : list E) (acc : list I) :
  findKey ikey k (fold_left step es acc) =
  match findKey ikey k acc, withKey ekey k es with
  | Some item, l => Some (fold_left update l item)
  | None, [] => None
  | None, e :: l => Some (fold_left update l (fresh e))
  end.
Proof.
  revert acc. induction es as [|e es IH]; intros acc; cbn [fold_left withKey List.filter].
  - by destruct (findKey ikey k acc).
  - rewrite IH, findKey_step. fold (withKey ekey k es).
    destruct (String.eqb (ekey e) k); [|done].
    by destruct (findKey ikey k acc).
Qed.

Lemma findKey_NoDup (item : I) (l : list I) :
  NoDup (List.map ikey l) -> In item l -> findKey ikey (ikey item) l = Some item.
Proof.
  unfold findKey.
  induction l as [|x l IH]; intros Hnd Hin; [done|].
  cbn [List.map] in Hnd. apply NoDup_cons in Hnd as [Hx Hnd].
  cbn [List.find]. destruct Hin as [->|Hin].
  - by rewrite String.eqb_refl.
  - destruct (String.eqb (ikey x) (ikey item)) eqn:Heq; [|by apply IH].
    apply String.eqb_eq in Heq. exfalso. apply Hx. rewrite Heq.
    apply list_elem_of_In, in_map, Hin.
Qed.

Lemma findKey_Some (k : string) (item : I) (l : list I) :
  findKey ikey k l = Some item -> In item l /\ ikey item = k.
Proof.
  intros H. apply find_some in H as [Hin Hk]. by apply String.eqb_eq in Hk.
Qed.

(** Every item of a grouping comes from the elements of its key. *)
Lemma grouped_item (item : I) (es : list E) :
  In item (fold_left step es []) ->
  exists e l, withKey ekey (ikey item) es = e :: l /\
              item = fold_left update l (fresh e).
Proof.
  intros Hin.
  pose proof (findKey_NoDup item (fold_left step es [])
                (keys_fold_NoDup es [] (NoDup_nil_2)) Hin) as Hfind.
  rewrite findKey_fold in Hfind. cbn [findKey List.find] in Hfind.
  destruct (withKey ekey (ikey item) es) as [|e l]; [done|].
  injection Hfind as <-. by exists e, l.
Qed.

End GroupBy.

(** ** Sorting *)

Section SortFacts.
Context {A : Type} (cmp : A -> A -> comparison).

Lemma insert_by_Permutation (x : A) (l : list A) :
  Permutation (insert_by cmp x l) (x :: l).
Proof.
  induction l as [|y l IH]; cbn [insert_by]; [done|].
  destruct (cmp x y); try done.
  rewrite IH. apply perm_swap.
Qed.

Lemma sort_Permutation (l : list A) : Permutation (sort cmp l) l.
Proof.
  unfold sort. induction l as [|x l IH]; cbn [fold_right]; [done|].
  by rewrite insert_by_Permutation, IH.
Qed.

Lemma sort_In (x : A) (l : list A) : In x (sort cmp l) <-> In x l.
Proof.
  split; apply Permutation_in; [|symmetry]; apply sort_Permutation.
Qed.

Lemma sort_map_In {B : Type} (f : A -> B) (y : B) (l : list A) :
  In y (List.map f (sort cmp l)) <-> In y (List.map f l).
Proof.
  rewrite !in_map_iff. split; intros (x & Hx & Hin); exists x;
    (split; [done|]); by apply sort_In.
Qed.

Hypothesis cmp_total : forall a b, cmp a b = Gt -> cmp b a <> Gt.
Hypothesis cmp_trans :
  forall a b c, cmp a b <> Gt -> cmp b c <> Gt -> cmp a c <> Gt.

Lemma insert_by_sorted (x : A) (l : list A) :
  StronglySorted (fun a b => cmp a b <> Gt) l ->
  StronglySorted (fun a b => cmp a b <> Gt) (insert_by cmp x l).
Proof.
  induction 1 as [|y l Hl IH Hy]; cbn [insert_by].
  - repeat constructor.
  - destruct (cmp x y) eqn:Hxy.
    + constructor; [by constructor|]. constructor; [congruence|].
      eapply Forall_impl; [exact Hy|]. intros z Hz. simpl in Hz.
      apply (cmp_trans x y z); congruence.
    + constructor; [by constructor|]. constructor; [congruence|].
      eapply Forall_impl; [exact Hy|]. intros z Hz. simpl in Hz.
      apply (cmp_trans x y z); congruence.
    + constructor; [done|].
      rewrite List.Forall_forall. intros z Hz.
      apply (Permutation_in _ (insert_by_Permutation x l)) in Hz.
      destruct Hz as [<-|Hz]; [by apply cmp_total|].
      rewrite List.Forall_forall in Hy. by apply Hy.
Qed.

Lemma sort_sorted (l : list A) :
  StronglySorted (fun a b => cmp a b <> Gt) (sort cmp l).
Proof.
  unfold sort. induction l as [|x l IH]; cbn [fold_right].
  - constructor.
  - by apply insert_by_sorted.
Qed.

End SortFacts.

Lemma string_compare_trans (s t u : string) :
  String.compare s t <> Gt -> String.compare t u <> Gt ->
  String.compare s u <> Gt.
Proof.
  revert t u. induction s as [|a s IH]; intros [|b t] [|c u];
    cbn [String.compare]; try done.
  unfold Ascii.compare.
  destruct (N.compare_spec (N_of_ascii a) (N_of_ascii b)) as [Hab|Hab|Hab],
    (N.compare_spec (N_of_ascii b) (N_of_ascii c)) as [Hbc|Hbc|Hbc],
    (N.compare_spec (N_of_ascii a) (N_of_ascii c)) as [Hac|Hac|Hac];
    try done; try lia.
  apply IH.
Qed.

Lemma string_compare_total (s t : string) :
  String.compare s t = Gt -> String.compare t s <> Gt.
Proof.
  rewrite (String.compare_antisym t s). by intros ->.
Qed.

Lemma string_compare_refl (s : string) : String.compare s s = Eq.
Proof.
  induction s as [|a s IH]; cbn [String.compare]; [done|].
  unfold Ascii.compare. by rewrite N.compare_refl.
Qed.

(** Sorting items of pairwise-distinct keys by key yields strictly
    ascending keys. *)
Lemma sort_by_key_ascending {A : Type} (key : A -> string) (l : list A) :
  NoDup (List.map key l) ->
  StronglySorted (fun a b => String.compare (key a) (key b) = Lt)
    (sort (fun a b => JSString.localeCompare (key a) (key b)) l).
Proof.
  intros Hnd.
  set (cmp := fun a b => JSString.localeCompare (key a) (key b)).
  assert (Hs : StronglySorted (fun a b => cmp a b <> Gt) (sort cmp l)).
  { apply sort_sorted; unfold cmp, JSString.localeCompare.
    - intros a b. apply string_compare_total.
    - intros a b c. apply string_compare_trans. }
  assert (Hnd' : NoDup (List.map key (sort cmp l))).
  { assert (Hp : Permutation (List.map key (sort cmp l)) (List.map key l))
      by apply Permutation_map, sort_Permutation.
    by rewrite Hp. }
  induction Hs as [|x l' Hl' IH Hx]; [constructor|].
  cbn [List.map] in Hnd'. apply NoDup_cons in Hnd' as [Hx' Hnd'].
  constructor; [by apply IH|].
  rewrite List.Forall_forall in Hx |- *. intros y Hy.
  specialize (Hx y Hy). unfold cmp, JSString.localeCompare in Hx.
  destruct (String.compare (key x) (key y)) eqn:Hc; try done.
  apply String.compare_eq_iff in Hc. exfalso. apply Hx'. rewrite Hc.
  apply list_elem_of_In, in_map, Hy.
Qed.

(** ** Calendar arithmetic *)

Section DateFacts.
Import JSDate.

Ltac split_ifs :=
  repeat match goal with
  | |- context [if ?b then _ else _] => destruct b eqn:?
  | H : context [if ?b then _ else _] |- _ => destruct b eqn:?
  end.

(** The date of a day number denotes that day number. *)
Lemma days_from_civil_from_days (z : Z) :
  let '(y, m, d) := civil_from_days z in days_from_civil y m d = z.
Proof.
  unfold civil_from_days, days_from_civil.
  split_ifs; Z.div_mod_to_equations; lia.
Qed.

Lemma civil_from_days_month (z : Z) : 1 <= (civil_from_days z).1.2 <= 12.
Proof.
  unfold civil_from_days. cbn [fst snd].
  split_ifs; Z.div_mod_to_equations; lia.
Qed.

Lemma month_of_year_day (y m d : Z) :
  1 <= m <= 12 -> 1 <= d <= daysInMonth y m ->
  let mp := if m >? 2 then m - 3 else m + 9 in
  let doy := (153 * mp + 2) / 5 + d - 1 in
  (5 * doy + 2) / 153 = mp /\ doy - (153 * mp + 2) / 5 + 1 = d /\
  0 <= doy <= 365 /\ (doy = 365 -> m = 2 /\ d = 29).
Proof.
  intros Hm Hd.
  assert (Hc : m = 1 \/ m = 2 \/ m = 3 \/ m = 4 \/ m = 5 \/ m = 6 \/
               m = 7 \/ m = 8 \/ m = 9 \/ m = 10 \/ m = 11 \/ m = 12) by lia.
  repeat (destruct Hc as [->|Hc]); try subst m.
  all: unfold daysInMonth in Hd; cbn in Hd; try destruct (isLeapYear y).
  all: cbn [Z.gtb Z.compare Pos.compare Pos.compare_cont]; cbv zeta.
  all: (split; [|split; [|split]]); Z.div_mod_to_equations; lia.
Qed.

Lemma year_of_era (yoe doy : Z) :
  0 <= yoe <= 399 -> 0 <= doy <= 365 ->
  (doy = 365 -> ((yoe + 1) mod 4 = 0 /\ (yoe + 1) mod 100 <> 0) \/ yoe = 399) ->
  let doe := yoe * 365 + yoe / 4 - yoe / 100 + doy in
  (doe - doe / 1460 + doe / 36524 - doe / 146096) / 365 = yoe.
Proof.
  intros H1 H2 H3 doe. subst doe. Z.div_mod_to_equations. lia.
Qed.

Lemma civil_from_days_from_civil (y m d : Z) :
  1 <= m <= 12 -> 1 <= d <= daysInMonth y m ->
  civil_from_days (days_from_civil y m d) = (y, m, d).
Proof.
  intros Hm Hd.
  destruct (month_of_year_day y m d Hm Hd) as (Hmp & Hd' & Hdoy & H365).
  cbv zeta in Hmp, Hd', Hdoy, H365.
  unfold days_from_civil.
  set (y' := if m <=? 2 then y - 1 else y).
  set (era := y' / 400).
  set (yoe := y' - era * 400).
  set (mp := if m >? 2 then m - 3 else m + 9) in *.
  set (doy := (153 * mp + 2) / 5 + d - 1) in *.
  set (doe := yoe * 365 + yoe / 4 - yoe / 100 + doy).
  assert (Hyoe : 0 <= yoe <= 399) by (subst yoe era; Z.div_mod_to_equations; lia).
  assert (Hleap : doy = 365 ->
            ((yoe + 1) mod 4 = 0 /\ (yoe + 1) mod 100 <> 0) \/ yoe = 399).
  { intros H. destruct (H365 H) as [-> ->].
    unfold daysInMonth in Hd. cbn in Hd.
    destruct (isLeapYear y) eqn:Hl; [|lia].
    unfold isLeapYear in Hl. subst yoe era y'. cbn.
    apply orb_prop in Hl as [Hl|Hl].
    - apply andb_prop in Hl as [H4 H100].
      apply Z.eqb_eq in H4. apply negb_true_iff, Z.eqb_neq in H100.
      left. Z.div_mod_to_equations. lia.
    - apply Z.eqb_eq in Hl. right. Z.div_mod_to_equations. lia. }
  pose proof (year_of_era yoe doy Hyoe Hdoy Hleap) as Hyear.
  cbv zeta in Hyear. fold doe in Hyear.
  assert (Hdoe : 0 <= doe < 146097) by (subst doe; Z.div_mod_to_equations; lia).
  unfold civil_from_days.
  replace (era * 146097 + doe - 719468 + 719468) with (doe + era * 146097) by lia.
  rewrite Z.div_add by lia. rewrite (Z.div_small doe) by lia.
  replace (doe + era * 146097 - (0 + era) * 146097) with doe by lia.
  rewrite Hyear.
  replace (doe - (365 * yoe + yoe / 4 - yoe / 100)) with doy by (subst doe; lia).
  rewrite Hmp, Hd'.
  subst mp yoe era y'.
  destruct (m <=? 2) eqn:H2, (m >? 2) eqn:H2'; try lia.
  - destruct (m + 9 <? 10) eqn:H3; try lia.
    replace (m + 9 - 9) with m by lia. rewrite H2. f_equal. f_equal. lia.
  - destruct (m - 3 <? 10) eqn:H3; try lia.
    replace (m - 3 + 3) with m by lia. rewrite H2. f_equal. f_equal. lia.
Qed.

Lemma parseISODate_valid (s : string) (y m d : Z) :
  parseISODate s = Some (y, m, d) ->
  1 <= m <= 12 /\ 1 <= d <= daysInMonth y m.
Proof.
  unfold parseISODate. intros H.
  destruct (list_ascii_of_string s) as [|y1 l]; [done|].
  do 9 (destruct l as [|? l]; [done|]).
  destruct l; [|done].
  destruct (_ && _)%bool in H; [|done].
  destruct (digits4 _ _ _ _); [|done].
  destruct (digits2 _ _); [|done].
  destruct (digits2 _ _); [|done].
  destruct (_ && _) eqn:Hv; [|done].
  injection H as <- <- <-.
  repeat (apply andb_prop in Hv as [Hv ?]). lia.
Qed.

Lemma Day_MakeDate (day : Z) : Day (MakeDate day 0) = day.
Proof.
  unfold Day, MakeDate, msPerDay. rewrite Z.add_0_r. by apply Z.div_mul.
Qed.

Lemma MakeDay_civil (y m d : Z) :
  1 <= m <= 12 -> MakeDay y (m - 1) d = days_from_civil y m d.
Proof.
  intros Hm. unfold MakeDay.
  rewrite (Z.div_small (m - 1) 12), (Z.mod_small (m - 1) 12) by lia.
  replace (y + 0) with y by lia. replace (m - 1 + 1) with m by lia.
  unfold days_from_civil. lia.
Qed.

(** The fields of the date that a date-only string denotes are those
    written in the string. *)
Lemma ofString_fields (s : string) (y m d : Z) :
  parseISODate s = Some (y, m, d) ->
  getFullYear (ofString s) = Some y /\
  getMonth (ofString s) = Some (m - 1) /\
  getDate (ofString s) = Some d.
Proof.
  intros H. destruct (parseISODate_valid s y m d H) as [Hm Hd].
  unfold ofString, getFullYear, getMonth, getDate. rewrite H.
  cbn [fmap option_fmap option_map].
  unfold YearFromTime, MonthFromTime, DateFromTime, LocalTime, LocalTZA.
  rewrite Z.add_0_r.
  rewrite Day_MakeDate, MakeDay_civil, civil_from_days_from_civil by done.
  done.
Qed.

Lemma ofString_invalid (s : string) :
  parseISODate s = None -> ofString s = None.
Proof. unfold ofString. by intros ->. Qed.

(** Setting the day of the month thirty days back moves the time value
    back by thirty days. *)
Lemma setDate_thirty_back (now : Z) :
  setDate now (DateFromTime (LocalTime now) - 30) = now - 30 * msPerDay.
Proof.
  unfold setDate, UTC, LocalTime, LocalTZA. cbv zeta.
  rewrite Z.add_0_r, Z.sub_0_r.
  unfold YearFromTime, MonthFromTime, DateFromTime.
  pose proof (days_from_civil_from_days (Day now)) as Hd.
  pose proof (civil_from_days_month (Day now)) as Hm.
  destruct (civil_from_days (Day now)) as [[y m] d]. cbn [fst snd] in *.
  rewrite MakeDay_civil by done.
  replace (days_from_civil y m (d - 30)) with (days_from_civil y m d - 30)
    by (unfold days_from_civil; lia).
  rewrite Hd. unfold MakeDate, Day, TimeWithinDay, msPerDay.
  Z.div_mod_to_equations. lia.
Qed.

End DateFacts.

(** ** Totals per category *)

Section GroupSum.
Context {E I : Type} (ekey : E -> string) (ikey : I -> string).
Context (fresh : E -> I) (update : I -> E -> I).
Context (val : I -> number) (amt : E -> number).
Hypothesis val_fresh : forall e, val (fresh e) = amt e.
Hypothesis val_update : forall i e, val (update i e) = (val i + amt e)%num.

Local Abbreviation step := (groupStep ekey ikey fresh update).

Lemma sum_step (acc : list I) (e : E) :
  sum_by val (step acc e) = (sum_by val acc + amt e)%num.
Proof.
  unfold groupStep.
  induction acc as [|item rest IH]; cbn [find_update].
  - by rewrite sum_by_cons, val_fresh, !sum_by_nil, add_zero_l, add_zero_r.
  - destruct (String.eqb _ _); rewrite !sum_by_cons.
    + rewrite val_update, <- !add_assoc. f_equal. apply add_comm.
    + by rewrite IH, add_assoc.
Qed.

Lemma sum_fold (es : list E) (acc : list I) :
  sum_by val (fold_left step es acc) = (sum_by val acc + sum_by amt es)%num.
Proof.
  revert acc. induction es as [|e es IH]; intros acc; cbn [fold_left].
  - by rewrite sum_by_nil, add_zero_r.
  - by rewrite IH, sum_step, sum_by_cons, add_assoc.
Qed.

Lemma val_fold_update (l : list E) (item : I) :
  val (fold_left update l item) = (val item + sum_by amt l)%num.
Proof.
  revert item. induction l as [|e l IH]; intros item; cbn [fold_left].
  - by rewrite sum_by_nil, add_zero_r.
  - by rewrite IH, val_update, sum_by_cons, add_assoc.
Qed.

End GroupSum.

Section CategoryTotals.
Import Summary.

Lemma sumOfTotals_comm (z1 z2 y : number) :
  (y + z2 + z1)%num = (y + z1 + z2)%num.
Proof. rewrite <- !add_assoc. f_equal. apply add_comm. Qed.

Lemma sumOfTotals_insert (m : gmap string number) (c : string) (v : number) :
  m !! c = None -> sumOfTotals (<[c:=v]> m) = (sumOfTotals m + v)%num.
Proof.
  intros Hc. unfold sumOfTotals.
  rewrite map_fold_insert_L; [done| |done].
  intros. apply sumOfTotals_comm.
Qed.

Lemma sumOfTotals_delete (m : gmap string number) (c : string) (v : number) :
  m !! c = Some v -> sumOfTotals m = (sumOfTotals (delete c m) + v)%num.
Proof.
  intros Hc. unfold sumOfTotals.
  rewrite (map_fold_delete_L _ _ c v m); [done| |done].
  intros. apply sumOfTotals_comm.
Qed.

Lemma lookup_or_zero_finite (m : gmap string number) (c : string) :
  finiteTotals m -> lookup_or_zero m c = default zero (m !! c).
Proof.
  intros Hm. unfold lookup_or_zero.
  destruct (m !! c) as [v|] eqn:Hc; [|done].
  apply or_else_zero_finite. by apply (Hm c).
Qed.

Lemma addToCategory_finite (m : gmap string number) (exp : Expense) :
  finiteTotals m -> isFinite (amount exp) = true ->
  finiteTotals (addToCategory m exp).
Proof.
  intros Hm Ha. unfold addToCategory. apply map_Forall_insert_2; [|done].
  apply add_finite; [|done]. rewrite lookup_or_zero_finite by done.
  destruct (m !! category exp) as [v|] eqn:Hc; [|done]. by apply (Hm _ _ Hc).
Qed.

Lemma sumOfTotals_addToCategory (m : gmap string number) (exp : Expense) :
  finiteTotals m ->
  sumOfTotals (addToCategory m exp) = (sumOfTotals m + amount exp)%num.
Proof.
  intros Hm. unfold addToCategory. rewrite lookup_or_zero_finite by done.
  destruct (m !! category exp) as [v|] eqn:Hc; cbn [default].
  - rewrite <- insert_delete_eq, sumOfTotals_insert by apply lookup_delete_eq.
    by rewrite (sumOfTotals_delete m _ v Hc), add_assoc.
  - rewrite sumOfTotals_insert by done. by rewrite add_zero_l.
Qed.

Lemma categoryTotals_fold (es : list Expense) (m : gmap string number) :
  finiteTotals m -> finiteAmounts es ->
  finiteTotals (fold_left addToCategory es m) /\
  sumOfTotals (fold_left addToCategory es m) =
    (sumOfTotals m + sum_by amount es)%num.
Proof.
  intros Hm Hes. revert m Hm.
  induction Hes as [|e es He _ IH]; intros m Hm; cbn [fold_left].
  - by rewrite sum_by_nil, add_zero_r.
  - destruct (IH (addToCategory m e)) as [Hfin Hsum];
      [by apply addToCategory_finite|].
    split; [done|].
    by rewrite Hsum, sumOfTotals_addToCategory, sum_by_cons, add_assoc.
Qed.

Lemma categoryTotals_fold_lookup (c : string) (es : list Expense)
    (m : gmap string number) :
  finiteTotals m -> finiteAmounts es ->
  fold_left addToCategory es m !! c =
  match ofCategory c es with
  | [] => m !! c
  | l => Some (default zero (m !! c) + sum_by amount l)%num
  end.
Proof.
  intros Hm Hes. revert m Hm.
  unfold ofCategory.
  induction Hes as [|e es He _ IH]; intros m Hm;
    cbn [fold_left withKey List.filter]; [done|].
  rewrite IH by (by apply addToCategory_finite).
  fold (withKey category c es). unfold addToCategory at 1 2.
  rewrite lookup_or_zero_finite by done.
  destruct (String.eqb_spec (category e) c) as [->|Hne].
  - rewrite lookup_insert_eq. cbn [default].
    destruct (withKey category c es) as [|e' l].
    + by rewrite sum_by_cons, sum_by_nil, add_zero_r.
    + by rewrite (sum_by_cons _ e), add_assoc.
  - by rewrite lookup_insert_ne.
Qed.

End CategoryTotals.

(** ** The category distribution of the charts *)

Section CategoryGroups.
Import Charts.

Local Abbreviation fresh :=
  (fun e => CategoryItem.mk (category e) (amount e) zero).
Local Abbreviation update :=
  (fun i e => CategoryItem.mk (CategoryItem.category i)
                (CategoryItem.amount i + amount e) (CategoryItem.percentage i)).

Lemma categoryGroups_fold (expenses : list Expense) :
  categoryGroups expenses =
  fold_left (groupStep category CategoryItem.category fresh update) expenses [].
Proof. done. Qed.

Lemma categoryGroups_sum (expenses : list Expense) :
  sum_by CategoryItem.amount (categoryGroups expenses) = sum_by amount expenses.
Proof.
  rewrite categoryGroups_fold.
  rewrite (sum_fold _ _ _ _ CategoryItem.amount amount) by done.
  by rewrite sum_by_nil, add_zero_l.
Qed.

Lemma categoryGroups_item (item : CategoryItem.t) (expenses : list Expense) :
  In item (categoryGroups expenses) ->
  ofCategory (CategoryItem.category item) expenses <> [] /\
  CategoryItem.amount item =
    sum_by amount (ofCategory (CategoryItem.category item) expenses).
Proof.
  rewrite categoryGroups_fold. intros Hin.
  apply grouped_item in Hin as (e & l & Hl & ->); try done.
  unfold ofCategory. rewrite Hl. split; [done|].
  rewrite (val_fold_update _ CategoryItem.amount amount) by done.
  by rewrite sum_by_cons.
Qed.

Lemma categoryGroups_keys (expenses : list Expense) :
  NoDup (List.map CategoryItem.category (categoryGroups expenses)) /\
  forall c, In c (List.map CategoryItem.category (categoryGroups expenses)) <->
            In c (List.map category expenses).
Proof.
  rewrite categoryGroups_fold. split.
  - apply keys_fold_NoDup; try done. apply NoDup_nil_2.
  - intros c. rewrite keys_fold_In by done. simpl. tauto.
Qed.

Lemma categoryData_groups (item : CategoryItem.t) (expenses : list Expense) :
  In item (categoryData expenses) ->
  exists group, In group (categoryGroups expenses) /\
    CategoryItem.category item = CategoryItem.category group /\
    CategoryItem.amount item = CategoryItem.amount group /\
    CategoryItem.percentage item =
      percentageOf (totalAmount expenses) (CategoryItem.amount group).
Proof.
  unfold categoryData. intros (group & <- & Hin)%in_map_iff. by exists group.
Qed.

End CategoryGroups.

(** ** Grand total and category totals *)




(** The calculator's accumulator needs finite amounts: [NaN || 0] is [0],
    so a total that has become [NaN] starts again from zero. *)
Lemma categoryTotals_restart_after_NaN :
  let expenses :=
    [mkExpense "1" NaN "Other" "unreadable" "2024-01-05";
     mkExpense "2" (ofZ 5) "Other" "stamp" "2024-01-06"] in
  Summary.categoryTotals expenses !! "Other" = Some (ofZ 5) /\
  sum_by amount expenses = NaN.
Proof.
  cbv zeta. split; [|by vm_compute].
  assert (H : forall o x, from_option (fun v => JSNumber.eqb v x) false o = true ->
                          o = Some x).
  { intros [v|] x; cbn [from_option]; [|done]. by intros ->%number_eq. }
  apply H. by vm_compute.
Qed.

(** ** Percentage shares *)

Section Percentages.
Import Charts.

Lemma gtb_zero (t : Qc) : gtb (Num t) zero = true <-> (0 < t)%Qc.
Proof.
  unfold gtb, zero. rewrite Z2Qc_inj_0.
  destruct (t ?= 0)%Qc eqn:Hc.
  - apply Qceq_alt in Hc. subst t. split; [done|].
    intros H. by apply Qclt_not_eq in H.
  - apply Qclt_alt in Hc. split; [done|]. intros H.
    exfalso. by apply (Qclt_not_le _ _ Hc), Qclt_le_weak.
  - apply Qcgt_alt in Hc. done.
Qed.

Lemma percentageOf_positive (t a : Qc) :
  (0 < t)%Qc ->
  percentageOf (Num t) (Num a) = Num (a / t * Qc_of_Z 100)%Qc /\
  percentageOf (Num t) (Num a) = ((Num a / Num t) * ofZ 100)%num.
Proof.
  intros Ht. unfold percentageOf.
  rewrite (proj2 (gtb_zero t) Ht). split; [|done].
  unfold div, sign. rewrite Z2Qc_inj_0.
  apply Qcgt_alt in Ht as ->. done.
Qed.

Lemma percentages_sum (t : Qc) (l : list CategoryItem.t) :
  (0 < t)%Qc ->
  Forall (fun item => isFinite (CategoryItem.amount item) = true) l ->
  exists q, sum_by CategoryItem.amount l = Num q /\
    sum_by (fun item => percentageOf (Num t) (CategoryItem.amount item)) l =
    Num (q / t * Qc_of_Z 100)%Qc.
Proof.
  intros Ht. induction 1 as [|item l Hitem _ (q & Hq & IH)].
  - exists 0%Qc. rewrite !sum_by_nil. unfold zero. rewrite Z2Qc_inj_0.
    split; [done|]. f_equal; try (unfold Qcdiv; ring).
  - destruct (CategoryItem.amount item) as [a| | |] eqn:Ha; try done.
    exists (a + q)%Qc. rewrite !sum_by_cons, Ha, Hq, IH.
    rewrite (proj1 (percentageOf_positive t a Ht)). cbn [add].
    split; [done|]. f_equal; try (unfold Qcdiv; ring).
Qed.

Lemma categoryGroups_finite (expenses : list Expense) :
  finiteAmounts expenses ->
  Forall (fun item => isFinite (CategoryItem.amount item) = true)
    (categoryGroups expenses).
Proof.
  intros Hfin. apply List.Forall_forall. intros item Hin.
  apply categoryGroups_item in Hin as [_ ->].
  apply sum_by_finite. unfold ofCategory, withKey.
  apply List.Forall_forall. intros e [He _]%filter_In.
  by apply (proj1 (List.Forall_forall _ _) Hfin).
Qed.

Lemma nonNegativeAmounts_finite (expenses : list Expense) :
  nonNegativeAmounts expenses -> finiteAmounts expenses.
Proof.
  intros H. eapply Forall_impl; [exact H|].
  intros e. apply nonNegative_finite.
Qed.

(** In the charts, for records with non-negative amounts: when the grand
    total is not zero, each share is the category total divided by the
    grand total, times 100, and the shares add up to 100; when it is zero,
    every share is zero. *)
Lemma chart_percentages (expenses : list Expense) :
  nonNegativeAmounts expenses ->
  (totalAmount expenses <> zero ->
     (forall item, In item (categoryData expenses) ->
        CategoryItem.percentage item =
          ((CategoryItem.amount item / totalAmount expenses) * ofZ 100)%num) /\
     sum_by CategoryItem.percentage (categoryData expenses) = ofZ 100) /\
  (totalAmount expenses = zero ->
     forall item, In item (categoryData expenses) ->
       CategoryItem.percentage item = zero).
Proof.
  intros Hnn.
  pose proof (sum_by_nonNegative amount expenses Hnn) as Htot.
  rewrite <- categoryGroups_sum in Htot. fold (totalAmount expenses) in Htot.
  pose proof (categoryGroups_finite expenses
                (nonNegativeAmounts_finite expenses Hnn)) as Hfin.
  destruct (totalAmount expenses) as [t| | |] eqn:Ht; try done.
  simpl in Htot. split.
  - intros Hnz.
    assert (Hpos : (0 < t)%Qc).
    { apply Qcle_lt_or_eq in Htot as [?|Heq]; [done|].
      exfalso. apply Hnz. unfold zero. by rewrite Z2Qc_inj_0, Heq. }
    split.
    + intros item (group & Hin & _ & -> & ->)%categoryData_groups.
      rewrite Ht.
      pose proof (proj1 (List.Forall_forall _ _) Hfin group Hin) as Hg.
      cbv beta in Hg.
      destruct (CategoryItem.amount group) as [a| | |]; try done.
      apply percentageOf_positive, Hpos.
    + unfold categoryData. rewrite Ht. cbv zeta.
      rewrite sum_by_map. cbn [CategoryItem.percentage].
      destruct (percentages_sum t _ Hpos Hfin) as (q & Hq & ->).
      unfold totalAmount in Ht. rewrite Ht in Hq. injection Hq as <-.
      unfold ofZ. f_equal. unfold Qcdiv.
      rewrite Qcmult_inv_r
        by (intros ->; by apply Qclt_not_eq in Hpos).
      ring.
  - intros Hz item (group & Hin & _ & _ & ->)%categoryData_groups.
    rewrite Ht, Hz. unfold percentageOf.
    destruct (gtb zero zero) eqn:Hg; [|done].
    unfold zero in Hg at 1. apply gtb_zero in Hg.
    rewrite Z2Qc_inj_0 in Hg. by apply Qclt_not_eq in Hg.
Qed.

(** The guard of the charts is [totalAmount > 0]: under a negative grand
    total, which non-negative amounts exclude, every share is zero. *)
Lemma chart_percentages_negative_total :
  let refund := mkExpense "3" (JSGlobal.parseFloat "-5") "Other" "refund" "2024-01-07" in
  totalAmount [refund] = JSGlobal.parseFloat "-5" /\
  List.map CategoryItem.percentage (categoryData [refund]) = [zero].
Proof.
  cbv zeta. split; [apply number_eq|]; by vm_compute.
Qed.

End Percentages.

(** C2, on the defect: the category breakdown of the calculator divides
    by the displayed total without a guard. A single record of amount 0
    (the form accepts ["0"]) gives a grand total of 0 and a share of [NaN];
    a filter on a category without records gives a displayed total of 0
    and a share of [Infinity]. *)
Theorem breakdown_share_without_guard :
  Local.expenses
    (outcome offline
       (Local.handleSubmit
          (Local.mkState [] (Form.mk "0" "Food & Dining" "free sample" "2024-01-05")
             None "all"))
       1704460000000) = [freeSample] /\
  Summary.totalAmount "all" [freeSample] = zero /\
  List.map (fun entry => (entry.1.1, entry.2))
    (Summary.categoryBreakdown "all" [freeSample]) = [("Food & Dining", NaN)] /\
  Summary.totalAmount "Travel" [lunch] = zero /\
  List.map (fun entry => (entry.1.1, entry.2))
    (Summary.categoryBreakdown "Travel" [lunch]) =
    [("Food & Dining", PosInfinity)] /\
  List.map CategoryItem.percentage (Charts.categoryData [freeSample]) = [zero].
Proof.
  split_and!.
  - done.
  - apply number_eq. by vm_compute.
  - by vm_compute.
  - apply number_eq. by vm_compute.
  - by vm_compute.
  - by vm_compute.
Qed.

(** ** The daily trend *)

Section DailyData.
Import Charts.

Local Abbreviation fresh :=
  (fun e => DayItem.mk (date e) (amount e)
              (JSDate.toMonthDay (JSDate.ofString (date e)))).
Local Abbreviation update :=
  (fun i e => DayItem.mk (DayItem.date i) (DayItem.amount i + amount e)
                (DayItem.displayDate i)).

Lemma dayGroups_fold (now : Z) (expenses : list Expense) :
  dayGroups now expenses =
  fold_left (groupStep date DayItem.date fresh update)
    (List.filter (inLastThirtyDays now) expenses) [].
Proof. done. Qed.

(** The filter keeps the records dated at or after thirty days before
    [now]; it has no upper bound. *)
Lemma inLastThirtyDays_spec (now : Z) (expense : Expense) :
  inLastThirtyDays now expense = true <->
  exists t, JSDate.ofString (date expense) = Some t /\
            now - 30 * JSDate.msPerDay <= t.
Proof.
  unfold inLastThirtyDays, thirtyDaysAgo.
  cbn [JSDate.getDate fmap option_fmap option_map].
  rewrite setDate_thirty_back.
  destruct (JSDate.ofString (date expense)) as [t|]; cbn [JSDate.geb].
  - rewrite Z.leb_le. split; [by exists t|]. by intros (? & [= <-] & ?).
  - split; [done|]. by intros (? & ? & _).
Qed.

(** The daily totals: the dates ascend strictly; the dates are those of
    the records that pass the filter; each amount is the sum over the
    passing records of that date. *)
Lemma dailyData_spec (now : Z) (expenses : list Expense) :
  StronglySorted
    (fun a b => String.compare (DayItem.date a) (DayItem.date b) = Lt)
    (dailyData now expenses) /\
  (forall k, In k (List.map DayItem.date (dailyData now expenses)) <->
     exists exp, In exp expenses /\ inLastThirtyDays now exp = true /\
                 date exp = k) /\
  (forall item, In item (dailyData now expenses) ->
     DayItem.amount item =
       sum_by amount
         (withKey date (DayItem.date item)
            (List.filter (inLastThirtyDays now) expenses))).
Proof.
  unfold dailyData. split_and!.
  - apply sort_by_key_ascending. rewrite dayGroups_fold.
    apply keys_fold_NoDup; try done. apply NoDup_nil_2.
  - intros k.
    rewrite sort_map_In, dayGroups_fold, keys_fold_In by done.
    split.
    + intros [[]|(exp & <- & [? ?]%filter_In)%in_map_iff]. by exists exp.
    + intros (exp & ? & ? & <-). right. by apply in_map, filter_In.
  - intros item Hin%sort_In. rewrite dayGroups_fold in Hin.
    apply grouped_item in Hin as (e & l & -> & ->); try done.
    rewrite (val_fold_update _ DayItem.amount amount) by done.
    by rewrite sum_by_cons.
Qed.

End DailyData.

(** C3, on the defect: the daily trend is labelled "last 30 days", but its
    filter only bounds dates from below. At 2024-03-09T16:00:00Z a record
    dated 2024-06-15, three months ahead, is part of the daily totals. *)
Theorem daily_totals_include_future_dates :
  JSDate.ofString (date conference) = Some 1718409600000 /\
  1710000000000 < 1718409600000 /\
  Charts.inLastThirtyDays 1710000000000 conference = true /\
  List.map (fun item => (DayItem.date item, DayItem.displayDate item))
    (Charts.dailyData 1710000000000 [conference]) = [("2024-06-15", "Jun 15")] /\
  List.map DayItem.amount (Charts.dailyData 1710000000000 [conference]) =
    [ofZ 450].
Proof.
  split_and!; first [by vm_compute | apply numbers_eq; by vm_compute].
Qed.

(** ** Decimal renderings and keys *)

(** The rendering of an integer is the decimal numeral that reads back
    as this integer. *)
Lemma ofZ_reads_back (z : Z) :
  Z.of_int <$> NilZero.int_of_string (JSString.ofZ z) = Some z.
Proof.
  unfold JSString.ofZ. rewrite NilZero.isi.
  - cbn [fmap option_fmap option_map]. f_equal. apply DecimalZ.of_to.
  - destruct z as [|p|p]; cbn [Z.to_int]; try done.
    intros [= H]. by apply DecimalPos.Unsigned.to_uint_nonnil in H.
  - destruct z as [|p|p]; cbn [Z.to_int]; try done.
    intros [= H]. by apply DecimalPos.Unsigned.to_uint_nonnil in H.
Qed.

Lemma ofZ_inj (y z : Z) : JSString.ofZ y = JSString.ofZ z -> y = z.
Proof.
  intros H. pose proof (ofZ_reads_back y) as Hy.
  rewrite H, ofZ_reads_back in Hy. by injection Hy.
Qed.

Lemma string_app_inj (s1 s2 t1 t2 : string) :
  String.length s1 = String.length s2 ->
  (s1 ++ t1)%string = (s2 ++ t2)%string -> s1 = s2 /\ t1 = t2.
Proof.
  revert s2. induction s1 as [|a s1 IH]; intros [|b s2]; try done.
  intros Hlen Happ.
  change (S (String.length s1) = S (String.length s2)) in Hlen.
  change (String a (s1 ++ t1)%string = String b (s2 ++ t2)%string) in Happ.
  injection Hlen as Hlen. injection Happ as -> Happ.
  destruct (IH s2 Hlen Happ) as [-> ->]. done.
Qed.

Lemma string_app_length (s t : string) :
  String.length (s ++ t)%string = (String.length s + String.length t)%nat.
Proof.
  induction s as [|a s IH]; [done|].
  change (S (String.length (s ++ t)%string) =
          S (String.length s + String.length t)%nat).
  by f_equal.
Qed.

Lemma month_digits (m : Z) :
  1 <= m <= 12 ->
  String.length (JSString.padStart 2 "0" (JSString.ofZ m)) = 2%nat /\
  Z.of_int <$> NilZero.int_of_string (JSString.padStart 2 "0" (JSString.ofZ m))
    = Some m.
Proof.
  intros Hm.
  assert (Hc : m = 1 \/ m = 2 \/ m = 3 \/ m = 4 \/ m = 5 \/ m = 6 \/
               m = 7 \/ m = 8 \/ m = 9 \/ m = 10 \/ m = 11 \/ m = 12) by lia.
  repeat (destruct Hc as [->|Hc]); try subst m; by vm_compute.
Qed.

(** Distinct calendar months have distinct keys. *)
Lemma yearMonth_inj (y m y' m' : Z) :
  1 <= m <= 12 -> 1 <= m' <= 12 ->
  yearMonth y m = yearMonth y' m' -> y = y' /\ m = m'.
Proof.
  intros Hm Hm' Heq. unfold yearMonth in Heq.
  destruct (month_digits m Hm) as [Hlen Hread].
  destruct (month_digits m' Hm') as [Hlen' Hread'].
  assert (Hl : String.length (JSString.ofZ y) = String.length (JSString.ofZ y')).
  { apply (f_equal String.length) in Heq.
    rewrite !string_app_length, Hlen, Hlen' in Heq. lia. }
  apply string_app_inj in Heq as [Hy Heq]; [|done].
  apply (string_app_inj "-" "-") in Heq as [_ Heq]; [|done].
  split; [by apply ofZ_inj|].
  rewrite Heq, Hread' in Hread. by injection Hread.
Qed.

(** ** The current-month total *)

Lemma getMonth_ofString (s : string) :
  JSDate.getMonth (JSDate.ofString s) =
  match JSDate.parseISODate s with
  | Some (_, m, _) => Some (m - 1)
  | None => None
  end.
Proof.
  destruct (JSDate.parseISODate s) as [[[y m] d]|] eqn:Hs.
  - by destruct (ofString_fields s y m d Hs) as (_ & -> & _).
  - by rewrite ofString_invalid.
Qed.


(** In March 2024 the total counts a record of March 2023. *)
Lemma thisMonth_counts_other_years :
  calendarMonth 1710000000000 = 3 /\
  Summary.thisMonth 1710000000000 [lunch; lastYear] = ofZ 75.
Proof.
  split; [done|]. apply number_eq. by vm_compute.
Qed.

(** ** The monthly trend *)

Section MonthlyData.
Import Charts.

Local Abbreviation fresh :=
  (fun e => MonthItem.mk (monthKeyOf e) (monthNameOf e) (amount e) 1).
Local Abbreviation update :=
  (fun i e => MonthItem.mk (MonthItem.monthKey i) (MonthItem.month i)
                (MonthItem.amount i + amount e) (MonthItem.count i + 1)).

Lemma monthGroups_fold (expenses : list Expense) :
  monthGroups expenses =
  fold_left (groupStep monthKeyOf MonthItem.monthKey fresh update) expenses [].
Proof. done. Qed.

Lemma count_fold_update (l : list Expense) (item : MonthItem.t) :
  MonthItem.count (fold_left update l item) =
  MonthItem.count item + Z.of_nat (length l).
Proof.
  revert item. induction l as [|e l IH]; intros item; cbn [fold_left length].
  - lia.
  - rewrite IH. cbn [MonthItem.count]. lia.
Qed.

Lemma monthGroups_item (item : MonthItem.t) (expenses : list Expense) :
  In item (monthGroups expenses) ->
  MonthItem.amount item =
    sum_by amount (withKey monthKeyOf (MonthItem.monthKey item) expenses) /\
  MonthItem.count item =
    Z.of_nat (length (withKey monthKeyOf (MonthItem.monthKey item) expenses)).
Proof.
  rewrite monthGroups_fold. intros Hin.
  apply grouped_item in Hin as (e & l & -> & ->); try done.
  split.
  - rewrite (val_fold_update _ MonthItem.amount amount) by done.
    by rewrite sum_by_cons.
  - rewrite count_fold_update. cbn [MonthItem.count length]. lia.
Qed.

(** The key of a record with a valid date is the year and the month
    written in the date. *)
Lemma monthKeyOf_valid (exp : Expense) (y m d : Z) :
  JSDate.parseISODate (date exp) = Some (y, m, d) ->
  monthKeyOf exp = yearMonth y m.
Proof.
  intros Hs. unfold monthKeyOf, yearMonth.
  destruct (ofString_fields _ y m d Hs) as (-> & -> & _).
  cbn [fmap option_fmap option_map JSDate.showNumber].
  by replace (m - 1 + 1) with m by lia.
Qed.

End MonthlyData.



(** ** Handlers *)

Section RunFacts.
Context {W : Type} (env : forall r : Request, W -> Reply r * W).

Lemma run_bind {A B : Type} (p : Prog A) (f : A -> Prog B) (w : W) :
  run env (bind p f) w =
  let first := run env p w in
  let second := run env (f first.1.1) first.1.2 in
  (second.1.1, second.1.2, first.2 ++ second.2).
Proof.
  revert w. induction p as [a|r k IH]; intros w; cbn [bind run].
  - cbv zeta. cbn [fst snd app]. by destruct (run env (f a) w) as [[? ?] ?].
  - cbv zeta. rewrite IH. done.
Qed.

End RunFacts.

Lemma missingField_spec (form : Form.t) :
  missingField form = true <->
  Form.amount form = "" \/ Form.category form = "" \/ Form.description form = "".
Proof.
  unfold missingField, JSGlobal.truthy.
  rewrite !orb_true_iff, !negb_true_iff, !negb_false_iff, !String.eqb_eq.
  tauto.
Qed.

(** *** Lists of records with distinct identifiers *)

Lemma unique_id_split (i : string) (l : list Expense) :
  uniqueIds l -> In i (List.map id l) ->
  exists before old after,
    l = before ++ old :: after /\ id old = i /\
    Forall (fun exp => id exp <> i) before /\
    Forall (fun exp => id exp <> i) after.
Proof.
  unfold uniqueIds. induction l as [|e l IH]; [done|].
  cbn [List.map]. intros [Hne Hnd]%NoDup_cons [<-|Hin].
  - exists [], e, l. split_and!; try done.
    apply List.Forall_forall. intros x Hx Heq. apply Hne. rewrite <- Heq.
    apply list_elem_of_In, in_map, Hx.
  - destruct (IH Hnd Hin) as (before & old & after & -> & Hold & Hb & Ha).
    exists (e :: before), old, after. split_and!; try done.
    constructor; [|done]. intros Heq. apply Hne. rewrite Heq.
    by apply list_elem_of_In.
Qed.

Lemma filter_other_ids (i : string) (l : list Expense) :
  Forall (fun exp => id exp <> i) l ->
  List.filter (fun exp => negb (String.eqb (id exp) i)) l = l.
Proof.
  induction 1 as [|e l He _ IH]; [done|].
  cbn [List.filter]. apply String.eqb_neq in He as ->. cbn [negb].
  by rewrite IH.
Qed.

Lemma map_other_ids (i : string) (new : Expense) (l : list Expense) :
  Forall (fun exp => id exp <> i) l ->
  List.map (fun exp => if String.eqb (id exp) i then new else exp) l = l.
Proof.
  induction 1 as [|e l He _ IH]; [done|].
  cbn [List.map]. apply String.eqb_neq in He as ->. by rewrite IH.
Qed.

Lemma map_replace_ids (i : string) (new : Expense) (l : list Expense) :
  id new = i ->
  List.map id (List.map (fun exp => if String.eqb (id exp) i then new else exp) l)
  = List.map id l.
Proof.
  intros Hnew. induction l as [|e l IH]; [done|].
  cbn [List.map]. rewrite IH. f_equal.
  destruct (String.eqb_spec (id e) i); congruence.
Qed.

Lemma filter_unique (f : Expense -> bool) (l : list Expense) :
  uniqueIds l -> uniqueIds (List.filter f l).
Proof.
  unfold uniqueIds. induction l as [|e l IH]; [done|].
  cbn [List.map List.filter]. intros [Hne Hnd]%NoDup_cons.
  destruct (f e); [|by apply IH].
  cbn [List.map]. apply NoDup_cons. split; [|by apply IH].
  intros Hin. apply Hne. apply list_elem_of_In in Hin.
  apply list_elem_of_In. apply in_map_iff in Hin as (x & Hx & Hin).
  apply filter_In in Hin as [Hin _]. rewrite <- Hx. by apply in_map.
Qed.

(** *** Submitting the form, local variant *)

Section LocalSubmit.
Context {W : Type} (env : forall r : Request, W -> Reply r * W).
Import Local.

(** The record built from the form under a given identifier. *)
Local Abbreviation fromForm i s :=
  (mkExpense i (JSGlobal.parseFloat (Form.amount (form s)))
     (Form.category (form s)) (Form.description (form s))
     (Form.date (form s))).

Lemma submit_missing (w : W) (s : State) :
  missingField (form s) = true ->
  run env (handleSubmit s) w =
  (s, (env (ShowToast validationError) w).2, [ShowToast validationError]).
Proof.
  intros Hm. unfold handleSubmit. rewrite Hm. done.
Qed.

Lemma submit_edit (w : W) (s : State) (i : string) :
  missingField (form s) = false ->
  JSGlobal.whenTruthy (editingId s) = Some i ->
  expenses (outcome env (handleSubmit s) w) =
  List.map (fun exp => if String.eqb (id exp) i then fromForm i s else exp)
    (expenses s).
Proof.
  intros Hm He. unfold outcome, handleSubmit. rewrite Hm, He. done.
Qed.

Lemma submit_create (w : W) (s : State) :
  missingField (form s) = false ->
  JSGlobal.whenTruthy (editingId s) = None ->
  expenses (outcome env (handleSubmit s) w) =
  expenses s ++ [fromForm (JSString.ofZ (env DateNow w).1) s].
Proof.
  intros Hm He. unfold outcome, handleSubmit. rewrite Hm, He. done.
Qed.

Lemma delete_filter (w : W) (s : State) (target : string) :
  expenses (outcome env (handleDelete target s) w) =
  List.filter (fun exp => negb (String.eqb (id exp) target)) (expenses s).
Proof. done. Qed.

End LocalSubmit.

(** ** Identifiers *)




(** ** Validation *)

(** C7: when the amount, the category or the description of the form is
    empty, submitting shows the validation notification and nothing else:
    the state is returned as it was and no other request, in particular no
    remote call, is performed, in the local and in the persisted variant. *)
Theorem submit_short_circuits_on_missing_field {W : Type}
    (env : forall r : Request, W -> Reply r * W) (w : W)
    (s : Local.State) (p : Persisted.State) :
  Form.amount (Local.form s) = "" \/ Form.category (Local.form s) = "" \/
    Form.description (Local.form s) = "" ->
  Form.amount (Persisted.form p) = "" \/ Form.category (Persisted.form p) = "" \/
    Form.description (Persisted.form p) = "" ->
  outcome env (Local.handleSubmit s) w = s /\
  requests env (Local.handleSubmit s) w = [ShowToast validationError] /\
  outcome env (Persisted.handleSubmit p) w = p /\
  requests env (Persisted.handleSubmit p) w = [ShowToast validationError] /\
  existsb isRemote (requests env (Persisted.handleSubmit p) w) = false.
Proof.
  intros Hs%missingField_spec Hp%missingField_spec.
  unfold outcome, requests. rewrite submit_missing by done.
  unfold Persisted.handleSubmit. rewrite Hp. done.
Qed.

Lemma submit_short_circuits_witness :
  outcome offline
    (Persisted.handleSubmit (Persisted.mkState [lunch] blank None "all" false))
    1710000000000 =
  Persisted.mkState [lunch] blank None "all" false.
Proof.
  apply (submit_short_circuits_on_missing_field offline 1710000000000
           (Local.mkState [lunch] blank None "all")
           (Persisted.mkState [lunch] blank None "all" false)).
  - left. reflexivity.
  - left. reflexivity.
Defined.

(** ** Deleting, editing and adding *)

(** C8: with pairwise-distinct identifiers, deleting by an identifier in
    use removes the one record that bears it; the records before and after
    it stay as they were, in their order, and so does the rest of the
    state. *)
Theorem delete_removes_exactly_one {W : Type}
    (env : forall r : Request, W -> Reply r * W) (w : W)
    (s : Local.State) (target : string) :
  uniqueIds (Local.expenses s) ->
  In target (List.map id (Local.expenses s)) ->
  let s' := outcome env (Local.handleDelete target s) w in
  (exists before old after,
     Local.expenses s = before ++ old :: after /\ id old = target /\
     Local.expenses s' = before ++ after) /\
  Local.form s' = Local.form s /\
  Local.editingId s' = Local.editingId s /\
  Local.filterCategory s' = Local.filterCategory s.
Proof.
  intros Hu Hin s'. split; [|done].
  destruct (unique_id_split target _ Hu Hin)
    as (before & old & after & Hl & Hold & Hb & Ha).
  exists before, old, after. split_and!; try done.
  subst s'. rewrite delete_filter, Hl, List.filter_app. cbn [List.filter].
  rewrite Hold, String.eqb_refl. cbn [negb].
  by rewrite !filter_other_ids.
Qed.

Lemma delete_removes_exactly_one_witness :
  Local.form (outcome offline (Local.handleDelete "1704450000000" adding) 0) =
  Local.form adding.
Proof.
  apply (delete_removes_exactly_one offline 0 adding "1704450000000").
  - apply (bool_decide_unpack _). by vm_compute.
  - left. reflexivity.
Defined.

(** C9: with pairwise-distinct identifiers and a filled form, submitting
    while the record of identifier [i] is under edit replaces that record
    by one of the same identifier whose amount, category, description and
    date are those of the form; the records before and after it, the list
    of identifiers and the length of the list stay as they were. *)
Theorem edit_replaces_fields_in_place {W : Type}
    (env : forall r : Request, W -> Reply r * W) (w : W)
    (s : Local.State) (i : string) :
  uniqueIds (Local.expenses s) ->
  missingField (Local.form s) = false ->
  JSGlobal.whenTruthy (Local.editingId s) = Some i ->
  In i (List.map id (Local.expenses s)) ->
  let s' := outcome env (Local.handleSubmit s) w in
  let edited :=
    mkExpense i (JSGlobal.parseFloat (Form.amount (Local.form s)))
      (Form.category (Local.form s)) (Form.description (Local.form s))
      (Form.date (Local.form s)) in
  (exists before old after,
     Local.expenses s = before ++ old :: after /\ id old = i /\
     Local.expenses s' = before ++ edited :: after) /\
  List.map id (Local.expenses s') = List.map id (Local.expenses s) /\
  length (Local.expenses s') = length (Local.expenses s).
Proof.
  intros Hu Hm He Hin s' edited. subst s'.
  rewrite (submit_edit env w s i Hm He). fold edited.
  split_and!.
  - destruct (unique_id_split i _ Hu Hin)
      as (before & old & after & Hl & Hold & Hb & Ha).
    exists before, old, after. split_and!; try done.
    rewrite Hl, List.map_app. cbn [List.map].
    rewrite Hold, String.eqb_refl. by rewrite !map_other_ids.
  - by apply map_replace_ids.
  - apply List.length_map.
Qed.

Lemma edit_replaces_fields_in_place_witness :
  List.map id (Local.expenses (outcome offline (Local.handleSubmit editing) 0)) =
  List.map id (Local.expenses editing).
Proof.
  apply (edit_replaces_fields_in_place offline 0 editing "1704450000000").
  - apply (bool_decide_unpack _). by vm_compute.
  - reflexivity.
  - reflexivity.
  - left. reflexivity.
Defined.

(** C10: in the local variant, submitting a filled form while no record
    is under edit leaves every record in place and appends one record: its
    identifier is the decimal rendering of the clock reading, its amount is
    [parseFloat] of the amount field, and its other fields are those of the
    form. *)
Theorem submit_appends_one_record {W : Type}
    (env : forall r : Request, W -> Reply r * W) (w : W) (s : Local.State) :
  missingField (Local.form s) = false ->
  JSGlobal.whenTruthy (Local.editingId s) = None ->
  let now := (env DateNow w).1 in
  let created :=
    mkExpense (JSString.ofZ now)
      (JSGlobal.parseFloat (Form.amount (Local.form s)))
      (Form.category (Local.form s)) (Form.description (Local.form s))
      (Form.date (Local.form s)) in
  Local.expenses (outcome env (Local.handleSubmit s) w) =
    Local.expenses s ++ [created] /\
  Z.of_int <$> NilZero.int_of_string (id created) = Some now.
Proof.
  intros Hm He now created. split.
  - by rewrite (submit_create env w s Hm He).
  - apply ofZ_reads_back.
Qed.

Lemma submit_appends_one_record_witness :
  Local.expenses (outcome offline (Local.handleSubmit adding) 1710000000000) =
  Local.expenses adding ++
  [mkExpense "1710000000000" (JSGlobal.parseFloat "12.50") "Food & Dining"
     "lunch" "2024-01-05"].
Proof.
  apply (submit_appends_one_record offline 1710000000000 adding);
    reflexivity.
Defined.

(** * Further properties of the aggregator *)

(** ** Order of the groups *)

Lemma filter_true_id {A : Type} (l : list A) :
  List.filter (fun _ => true) l = l.
Proof. induction l as [|a l IH]; [done|]. cbn [List.filter]. by rewrite IH. Qed.

Lemma filter_filter_and {A : Type} (p q : A -> bool) (l : list A) :
  List.filter p (List.filter q l) = List.filter (fun a => p a && q a) l.
Proof.
  induction l as [|a l IH]; [done|]. cbn [List.filter].
  destruct (q a); cbn [List.filter]; rewrite ?andb_true_r, ?andb_false_r, IH;
    [done|]. by destruct (p a).
Qed.

Lemma existsb_eqb_app (k k' : string) (l : list string) :
  existsb (String.eqb k') (l ++ [k]) =
  existsb (String.eqb k') l || String.eqb k' k.
Proof. rewrite existsb_app. cbn [existsb]. by rewrite orb_false_r. Qed.

Section GroupOrder.
Context {E I : Type} (ekey : E -> string) (ikey : I -> string).
Context (fresh : E -> I) (update : I -> E -> I).
Hypothesis ikey_fresh : forall e, ikey (fresh e) = ekey e.
Hypothesis ikey_update : forall i e, ikey (update i e) = ikey i.

Local Abbreviation step := (groupStep ekey ikey fresh update).

(** The keys of a grouping: those already there, then the new ones, each
    where it first occurs. *)
Lemma keys_fold_order (es : list E) (acc : list I) :
  List.map ikey (fold_left step es acc) =
  List.map ikey acc ++
  List.filter (fun k => negb (existsb (String.eqb k) (List.map ikey acc)))
    (firstOccurrences (List.map ekey es)).
Proof.
  revert acc. induction es as [|e es IH]; intros acc;
    cbn [fold_left List.map firstOccurrences List.filter].
  - by rewrite app_nil_r.
  - rewrite IH, keys_step by done.
    destruct (existsb (String.eqb (ekey e)) (List.map ikey acc)) eqn:Hk;
      cbn [negb].
    + rewrite app_nil_r. f_equal. rewrite filter_filter_and.
      apply filter_ext. intros k.
      destruct (String.eqb_spec k (ekey e)) as [->|]; cbn [negb].
      * by rewrite Hk.
      * by rewrite andb_true_r.
    + rewrite <- app_assoc. cbn [app]. do 2 f_equal.
      rewrite filter_filter_and. apply filter_ext. intros k.
      by rewrite existsb_eqb_app, negb_orb.
Qed.

End GroupOrder.

Lemma firstOccurrences_In (k : string) (keys : list string) :
  In k (firstOccurrences keys) <-> In k keys.
Proof.
  induction keys as [|k' keys IH]; [done|]. cbn [firstOccurrences In].
  rewrite filter_In, IH, negb_true_iff, String.eqb_neq.
  destruct (String.eqb_spec k' k); intuition congruence.
Qed.

Lemma firstOccurrences_NoDup (keys : list string) :
  NoDup (firstOccurrences keys).
Proof.
  induction keys as [|k keys IH]; cbn [firstOccurrences]; [constructor|].
  apply NoDup_cons. split.
  - intros [_ Hk]%list_elem_of_In%filter_In. by rewrite String.eqb_refl in Hk.
  - apply NoDup_ListNoDup, List.NoDup_filter, NoDup_ListNoDup, IH.
Qed.


(** ** Bounds on the shares *)

Lemma sum_by_filter_le {A : Type} (f : A -> number) (p : A -> bool)
    (l : list A) :
  Forall (fun a => nonNegative (f a)) l ->
  numLe (sum_by f (List.filter p l)) (sum_by f l).
Proof.
  intros Hnn.
  assert (Hpart : Forall (fun a => nonNegative (f a)) (List.filter p l)).
  { apply List.Forall_forall. intros a [Ha _]%filter_In.
    by apply (proj1 (List.Forall_forall _ _) Hnn). }
  assert (Hrest : Forall (fun a => nonNegative (f a))
                    (List.filter (fun a => negb (p a)) l)).
  { apply List.Forall_forall. intros a [Ha _]%filter_In.
    by apply (proj1 (List.Forall_forall _ _) Hnn). }
  apply sum_by_nonNegative in Hpart, Hrest.
  rewrite (sum_by_partition f p l).
  destruct (sum_by f (List.filter p l)) as [a| | |]; try done.
  destruct (sum_by f (List.filter _ l)) as [b| | |]; try done.
  cbn [add numLe]. simpl in Hpart, Hrest.
  rewrite <- (Qcplus_0_r a) at 1. by apply Qcplus_le_mono_l.
Qed.

Lemma share_bounds (a t : Qc) :
  (0 <= a)%Qc -> (a <= t)%Qc -> (0 < t)%Qc ->
  (0 <= a / t * Qc_of_Z 100)%Qc /\ (a / t * Qc_of_Z 100 <= Qc_of_Z 100)%Qc.
Proof.
  intros Ha Hat Ht.
  assert (H100 : (0 <= Qc_of_Z 100)%Qc)
    by (rewrite <- Z2Qc_inj_0; by apply Z2Qc_inj_le).
  assert (Hinv : (0 < / t)%Qc) by by apply Qcinv_pos.
  unfold Qcdiv. split.
  - apply Qcmult_nonneg_nonneg; [|done].
    apply Qcmult_nonneg_nonneg; [done|by apply Qclt_le_weak].
  - rewrite <- (Qcmult_1_l (Qc_of_Z 100)) at 2.
    apply Qcmult_le_mono_nonneg_r; [done|].
    rewrite <- (Qcmult_inv_r t) by (intros ->; by apply Qclt_not_eq in Ht).
    apply Qcmult_le_mono_nonneg_r; [by apply Qclt_le_weak|done].
Qed.

(** X2: in the charts, for records with non-negative amounts and a grand
    total that is not zero, the percentage shares add up to 100 and each
    share lies between 0 and 100. *)
Theorem chart_shares_sum_to_100_and_are_bounded (expenses : list Expense) :
  nonNegativeAmounts expenses ->
  Charts.totalAmount expenses <> zero ->
  sum_by CategoryItem.percentage (Charts.categoryData expenses) = ofZ 100 /\
  forall item, In item (Charts.categoryData expenses) ->
    numLe zero (CategoryItem.percentage item) /\
    numLe (CategoryItem.percentage item) (ofZ 100).
Proof.
  intros Hnn Hnz.
  destruct (chart_percentages expenses Hnn) as [Hshares _].
  destruct (Hshares Hnz) as [_ Hsum]. split; [done|].
  intros item (group & Hin & _ & _ & ->)%categoryData_groups.
  pose proof (categoryGroups_item group expenses Hin) as [_ Hamount].
  pose proof (sum_by_filter_le amount
                (fun exp => String.eqb (category exp) (CategoryItem.category group))
                expenses Hnn) as Hle.
  fold (withKey category (CategoryItem.category group) expenses) in Hle.
  fold (ofCategory (CategoryItem.category group) expenses) in Hle.
  rewrite <- Hamount in Hle.
  assert (Hpart : nonNegative (CategoryItem.amount group)).
  { rewrite Hamount. apply sum_by_nonNegative.
    apply List.Forall_forall. intros e [He _]%filter_In.
    by apply (proj1 (List.Forall_forall _ _) Hnn). }
  pose proof (sum_by_nonNegative amount expenses Hnn) as Htot.
  rewrite <- categoryGroups_sum in Htot, Hle.
  fold (Charts.totalAmount expenses) in Htot, Hle.
  destruct (Charts.totalAmount expenses) as [t| | |]; try done.
  destruct (CategoryItem.amount group) as [a| | |]; try done.
  simpl in Hpart, Htot, Hle.
  assert (Hpos : (0 < t)%Qc).
  { apply Qcle_lt_or_eq in Htot as [?|Heq]; [done|].
    exfalso. apply Hnz. unfold zero. by rewrite Z2Qc_inj_0, Heq. }
  rewrite (proj1 (percentageOf_positive t a Hpos)).
  unfold zero, ofZ. cbn [numLe]. rewrite Z2Qc_inj_0.
  by apply share_bounds.
Qed.

Lemma chart_shares_witness :
  sum_by CategoryItem.percentage (Charts.categoryData [lunch; busPass; groceries])
  = ofZ 100.
Proof.
  apply (chart_shares_sum_to_100_and_are_bounded [lunch; busPass; groceries]).
  - repeat constructor; by vm_compute.
  - apply number_neq. by vm_compute.
Defined.

(** ** Conservation in the monthly trend *)

Lemma totalCount_init (l : list MonthItem.t) (z : Z) :
  fold_left (fun n item => n + MonthItem.count item) l z = z + totalCount l.
Proof.
  unfold totalCount. revert z.
  induction l as [|item l IH]; intros z; cbn [fold_left]; [lia|].
  rewrite IH, (IH (0 + MonthItem.count item)). lia.
Qed.

Lemma totalCount_cons (item : MonthItem.t) (l : list MonthItem.t) :
  totalCount (item :: l) = MonthItem.count item + totalCount l.
Proof.
  unfold totalCount at 1. cbn [fold_left]. rewrite totalCount_init. lia.
Qed.

Lemma totalCount_Permutation (l1 l2 : list MonthItem.t) :
  Permutation l1 l2 -> totalCount l1 = totalCount l2.
Proof.
  induction 1 as [|a l1 l2 _ IH|a b l|l1 l2 l3 _ IH1 _ IH2];
    rewrite ?totalCount_cons; lia.
Qed.

Lemma totalCount_monthStep (acc : list MonthItem.t) (e : Expense) :
  totalCount (Charts.monthStep acc e) = totalCount acc + 1.
Proof.
  unfold Charts.monthStep.
  induction acc as [|item rest IH]; cbn [find_update].
  - done.
  - destruct (String.eqb _ _); rewrite !totalCount_cons.
    + cbn [MonthItem.count]. lia.
    + rewrite IH. lia.
Qed.

Lemma totalCount_monthGroups (es : list Expense) (acc : list MonthItem.t) :
  totalCount (fold_left Charts.monthStep es acc) =
  totalCount acc + Z.of_nat (length es).
Proof.
  revert acc. induction es as [|e es IH]; intros acc; cbn [fold_left length].
  - lia.
  - rewrite IH, totalCount_monthStep. lia.
Qed.


(** ** Records without a valid date in the monthly trend *)

Section InvalidDates.
Import Charts.

Lemma digit_range (c : ascii) (x : Z) : JSDate.digit c = Some x -> 0 <= x <= 9.
Proof.
  unfold JSDate.digit. destruct (_ && _) eqn:H; [|done].
  intros [= <-]. apply andb_prop in H as [H1 H2]. lia.
Qed.

Lemma digits2_range (a b : ascii) (x : Z) :
  JSDate.digits2 a b = Some x -> 0 <= x <= 99.
Proof.
  unfold JSDate.digits2.
  destruct (JSDate.digit a) as [u|] eqn:Ha; [|done].
  destruct (JSDate.digit b) as [v|] eqn:Hb; [|done].
  intros [= <-]. apply digit_range in Ha, Hb. lia.
Qed.

Lemma parseISODate_year (s : string) (y m d : Z) :
  JSDate.parseISODate s = Some (y, m, d) -> 0 <= y <= 9999.
Proof.
  unfold JSDate.parseISODate. intros H.
  destruct (list_ascii_of_string s) as [|y1 l]; [done|].
  do 9 (destruct l as [|? l]; [done|]).
  destruct l; [|done].
  destruct (_ && _)%bool in H; [|done].
  unfold JSDate.digits4 in H.
  destruct (JSDate.digits2 y1 a) as [u|] eqn:Hu; [|done].
  destruct (JSDate.digits2 a0 a1) as [v|] eqn:Hv; [|done].
  destruct (JSDate.digits2 a3 a4); [|done].
  destruct (JSDate.digits2 a6 a7); [|done].
  destruct (_ && _) in H; [|done].
  injection H as <- <- <-. apply digits2_range in Hu, Hv. lia.
Qed.

Lemma ofZ_starts_with_digit (y : Z) :
  0 <= y ->
  exists c s, JSString.ofZ y = String c s /\ Ascii.compare c "N" = Lt.
Proof.
  intros Hy. unfold JSString.ofZ. destruct y as [|p|p]; [| |lia].
  - by exists "0"%char, "".
  - cbn [Z.to_int NilZero.string_of_int].
    pose proof (DecimalPos.Unsigned.to_uint_nonnil p) as Hnil.
    destruct (Pos.to_uint p) as [|u|u|u|u|u|u|u|u|u|u]; [done|..];
      cbn [NilZero.string_of_uint NilEmpty.string_of_uint];
      eexists _, _; (split; [reflexivity|by vm_compute]).
Qed.

Lemma yearMonth_before_NaN (y m : Z) :
  0 <= y -> String.compare (yearMonth y m) "NaN-NaN" = Lt.
Proof.
  intros Hy. unfold yearMonth.
  destruct (ofZ_starts_with_digit y Hy) as (c & s & -> & Hc).
  change (String.compare
            (String c (s ++ "-" ++ JSString.padStart 2 "0" (JSString.ofZ m)))
            (String "N" "aN-NaN") = Lt).
  cbn [String.compare]. by rewrite Hc.
Qed.

Lemma hasInvalidDate_parse (exp : Expense) :
  hasInvalidDate exp = true <-> JSDate.parseISODate (date exp) = None.
Proof.
  unfold hasInvalidDate, JSDate.ofString.
  by destruct (JSDate.parseISODate (date exp)) as [[[y m] d]|].
Qed.

Lemma monthKeyOf_invalid (exp : Expense) :
  hasInvalidDate exp = true ->
  monthKeyOf exp = "NaN-NaN" /\ monthNameOf exp = "Invalid Date".
Proof.
  unfold hasInvalidDate, monthKeyOf, monthNameOf.
  by destruct (JSDate.ofString (date exp)).
Qed.

Lemma monthKeyOf_NaN (exp : Expense) :
  String.eqb (monthKeyOf exp) "NaN-NaN" = hasInvalidDate exp.
Proof.
  destruct (hasInvalidDate exp) eqn:Hinv.
  - apply monthKeyOf_invalid in Hinv as [-> _]. done.
  - apply String.eqb_neq. intros Hkey.
    assert (Hp : JSDate.parseISODate (date exp) <> None).
    { intros Hp%hasInvalidDate_parse. congruence. }
    destruct (JSDate.parseISODate (date exp)) as [[[y m] d]|] eqn:Hs; [|done].
    rewrite (monthKeyOf_valid _ _ _ _ Hs) in Hkey.
    pose proof (yearMonth_before_NaN y m) as Hlt.
    rewrite Hkey, string_compare_refl in Hlt.
    apply parseISODate_year in Hs.
    assert (Hf : Eq = Lt) by (apply Hlt; lia). discriminate Hf.
Qed.

Lemma monthKeyOf_le_NaN (exp : Expense) :
  String.compare (monthKeyOf exp) "NaN-NaN" <> Gt.
Proof.
  destruct (hasInvalidDate exp) eqn:Hinv.
  - apply monthKeyOf_invalid in Hinv as [-> _]. done.
  - assert (Hp : JSDate.parseISODate (date exp) <> None).
    { intros Hp%hasInvalidDate_parse. congruence. }
    destruct (JSDate.parseISODate (date exp)) as [[[y m] d]|] eqn:Hs; [|done].
    rewrite (monthKeyOf_valid _ _ _ _ Hs), yearMonth_before_NaN; [done|].
    apply parseISODate_year in Hs. lia.
Qed.

Lemma month_fold_update (l : list Expense) (item : MonthItem.t) :
  MonthItem.month
    (fold_left
       (fun i e => MonthItem.mk (MonthItem.monthKey i) (MonthItem.month i)
                     (MonthItem.amount i + amount e) (MonthItem.count i + 1))
       l item) = MonthItem.month item.
Proof.
  revert item. induction l as [|e l IH]; intros item; cbn [fold_left]; [done|].
  by rewrite IH.
Qed.

Lemma StronglySorted_middle {A : Type} (R : A -> A -> Prop) (l1 l2 : list A)
    (x : A) :
  StronglySorted R (l1 ++ x :: l2) ->
  Forall (fun a => R a x) l1 /\ Forall (fun b => R x b) l2.
Proof.
  induction l1 as [|a l1 IH]; cbn [app]; intros Hs.
  - apply StronglySorted_inv in Hs as [_ Hx]. by split.
  - apply StronglySorted_inv in Hs as [Hs Ha].
    destruct (IH Hs) as [H1 H2]. split; [|done].
    constructor; [|done]. rewrite List.Forall_forall in Ha.
    apply Ha, in_or_app. right. by left.
Qed.

End InvalidDates.



(** ** The daily trend in terms of dates *)

Lemma inLastThirtyDays_date (now : Z) (e e' : Expense) :
  date e = date e' ->
  Charts.inLastThirtyDays now e = Charts.inLastThirtyDays now e'.
Proof. unfold Charts.inLastThirtyDays. by intros ->. Qed.

Lemma day_fold_update (l : list Expense) (item : DayItem.t) :
  let last :=
    fold_left
      (fun i e => DayItem.mk (DayItem.date i) (DayItem.amount i + amount e)
                    (DayItem.displayDate i))
      l item in
  DayItem.date last = DayItem.date item /\
  DayItem.displayDate last = DayItem.displayDate item.
Proof.
  revert item. induction l as [|e l IH]; intros item; cbn [fold_left]; [done|].
  cbv zeta in IH |- *. by rewrite !(proj1 (IH _)), !(proj2 (IH _)).
Qed.


(** ** The top spending categories *)

Section SortOn.
Context {A : Type} (cmp : A -> A -> comparison) (P : A -> Prop).
Hypothesis cmp_total :
  forall a b, P a -> P b -> cmp a b = Gt -> cmp b a <> Gt.
Hypothesis cmp_trans :
  forall a b c, P a -> P b -> P c ->
    cmp a b <> Gt -> cmp b c <> Gt -> cmp a c <> Gt.

Lemma insert_by_sorted_on (x : A) (l : list A) :
  P x -> Forall P l ->
  StronglySorted (fun a b => cmp a b <> Gt) l ->
  StronglySorted (fun a b => cmp a b <> Gt) (insert_by cmp x l).
Proof.
  intros Hx Hl Hs. induction Hs as [|y l Hs IH Hy]; cbn [insert_by].
  - repeat constructor.
  - apply Forall_cons in Hl as [HPy Hl].
    assert (Hbelow : cmp x y <> Gt -> Forall (fun z => cmp x z <> Gt) (y :: l)).
    { intros Hxy. constructor; [done|].
      rewrite List.Forall_forall in Hy, Hl |- *. intros z Hz.
      apply (cmp_trans x y z); auto. }
    destruct (cmp x y) eqn:Hxy.
    + constructor; [by constructor|]. by apply Hbelow.
    + constructor; [by constructor|]. by apply Hbelow.
    + constructor; [by apply IH|].
      rewrite List.Forall_forall. intros z Hz.
      apply (Permutation_in _ (insert_by_Permutation cmp x l)) in Hz.
      destruct Hz as [<-|Hz]; [by apply cmp_total|].
      rewrite List.Forall_forall in Hy. by apply Hy.
Qed.

Lemma sort_sorted_on (l : list A) :
  Forall P l -> StronglySorted (fun a b => cmp a b <> Gt) (sort cmp l).
Proof.
  unfold sort. induction 1 as [|x l Hx Hl IH]; cbn [fold_right].
  - constructor.
  - apply insert_by_sorted_on; [done| |done].
    fold (sort cmp l). apply List.Forall_forall. intros z Hz%sort_In.
    by apply (proj1 (List.Forall_forall _ _) Hl).
Qed.

End SortOn.

Lemma StronglySorted_impl_on {A : Type} (P : A -> Prop) (R R' : A -> A -> Prop)
    (l : list A) :
  (forall a b, P a -> P b -> R a b -> R' a b) ->
  Forall P l -> StronglySorted R l -> StronglySorted R' l.
Proof.
  intros Himpl HP Hs. induction Hs as [|x l Hs IH Hx]; [constructor|].
  apply Forall_cons in HP as [HPx HP]. constructor; [by apply IH|].
  rewrite List.Forall_forall in Hx, HP |- *. intros y Hy. auto.
Qed.

Section TopCategoriesFacts.
Import TopCategories.

Lemma ordering_Num (v : Qc) : ordering (Num v) = (v ?= 0)%Qc.
Proof.
  unfold ordering.
  destruct (v ?= 0)%Qc eqn:Hc.
  - apply Qceq_alt in Hc as ->.
    assert (H0 : gtb zero (Num 0%Qc) = false) by by vm_compute.
    assert (H1 : gtb (Num 0%Qc) zero = false) by by vm_compute.
    by rewrite H0, H1.
  - apply Qclt_alt in Hc.
    assert (H : gtb zero (Num v) = true).
    { unfold gtb, zero. rewrite Z2Qc_inj_0.
      by apply Qcgt_alt in Hc as ->. }
    by rewrite H.
  - apply Qcgt_alt in Hc.
    assert (H0 : gtb zero (Num v) = false).
    { unfold gtb, zero. rewrite Z2Qc_inj_0.
      destruct (0 ?= v)%Qc eqn:Hc'; try done.
      apply Qcgt_alt in Hc'. exfalso.
      by apply (Qclt_not_le _ _ Hc), Qclt_le_weak. }
    rewrite H0. by rewrite (proj2 (gtb_zero v) Hc).
Qed.

Lemma byAmountDescending_le (a b : CategoryItem.t) :
  isFinite (CategoryItem.amount a) = true ->
  isFinite (CategoryItem.amount b) = true ->
  byAmountDescending a b <> Gt <->
  numLe (CategoryItem.amount b) (CategoryItem.amount a).
Proof.
  unfold byAmountDescending, sub.
  destruct (CategoryItem.amount a) as [qa| | |],
    (CategoryItem.amount b) as [qb| | |]; try done.
  intros _ _. cbn [neg add numLe]. rewrite ordering_Num.
  rewrite <- Qcle_alt, Qcle_minus_iff.
  replace (0 + - (qb + - qa))%Qc with (qa + - qb)%Qc by ring.
  symmetry. apply Qcle_minus_iff.
Qed.

Lemma numLe_total (x y : number) :
  isFinite x = true -> isFinite y = true -> numLe x y \/ numLe y x.
Proof.
  destruct x as [a| | |], y as [b| | |]; try done. intros _ _. cbn [numLe].
  destruct (Qclt_le_dec a b) as [?%Qclt_le_weak|?]; auto.
Qed.

Lemma numLe_trans (x y z : number) : numLe x y -> numLe y z -> numLe x z.
Proof.
  destruct x as [a| | |], y as [b| | |], z as [c| | |]; try done.
  apply Qcle_trans.
Qed.

Lemma categoryData_finite (expenses : list Expense) :
  finiteAmounts expenses ->
  Forall (fun item => isFinite (CategoryItem.amount item) = true)
    (Charts.categoryData expenses).
Proof.
  intros Hfin. apply List.Forall_forall.
  intros item (group & Hin & _ & -> & _)%categoryData_groups.
  by apply (proj1 (List.Forall_forall _ _) (categoryGroups_finite expenses Hfin)).
Qed.

End TopCategoriesFacts.

(** X6: for finite amounts, the top spending categories are the
    categories of the distribution sorted by descending amount and cut
    after five: there are five of them, or all if there are fewer, and
    together with the categories left out they form the distribution in
    descending order of amount, so that no category left out has a larger
    amount than one that is shown. *)
Theorem topCategories_are_the_largest (expenses : list Expense) :
  finiteAmounts expenses ->
  let top := TopCategories.topCategories expenses in
  length top = Nat.min 5 (length (Charts.categoryData expenses)) /\
  exists rest,
    Permutation (top ++ rest) (Charts.categoryData expenses) /\
    StronglySorted
      (fun a b => numLe (CategoryItem.amount b) (CategoryItem.amount a))
      (top ++ rest).
Proof.
  intros Hfin top. subst top. unfold TopCategories.topCategories.
  set (sorted := sort TopCategories.byAmountDescending
                   (Charts.categoryData expenses)).
  pose proof (sort_Permutation TopCategories.byAmountDescending
                (Charts.categoryData expenses)) as Hperm.
  fold sorted in Hperm.
  pose proof (categoryData_finite expenses Hfin) as Hdata.
  split.
  - rewrite length_firstn. by rewrite (Permutation_length Hperm).
  - exists (skipn 5 sorted). rewrite firstn_skipn. split; [done|].
    apply (StronglySorted_impl_on
             (fun item => isFinite (CategoryItem.amount item) = true)
             (fun a b => TopCategories.byAmountDescending a b <> Gt)).
    + intros a b Ha Hb. by apply byAmountDescending_le.
    + by rewrite Hperm.
    + apply (sort_sorted_on _
               (fun item => isFinite (CategoryItem.amount item) = true));
        [| |exact Hdata].
      * intros a b Ha Hb Hab. apply byAmountDescending_le; [done..|].
        destruct (numLe_total _ _ Ha Hb) as [Hle|Hle]; [done|].
        apply byAmountDescending_le in Hle; [|done..]. congruence.
      * intros a b c Ha Hb Hc Hab Hbc.
        apply byAmountDescending_le in Hab, Hbc; [|done..].
        apply byAmountDescending_le; [done..|].
        by apply (numLe_trans _ (CategoryItem.amount b)).
Qed.

Lemma topCategories_witness :
  length (TopCategories.topCategories [lunch; busPass; groceries]) =
  Nat.min 5 (length (Charts.categoryData [lunch; busPass; groceries])).
Proof.
  apply (topCategories_are_the_largest [lunch; busPass; groceries]).
  repeat constructor.
Defined.

(** * Further properties of the calculator *)

(** ** The category breakdown under the filter "all" *)

Section Breakdown.
Import Summary.

Lemma sumOfTotals_entries (m : gmap string number) :
  sumOfTotals m = sum_by snd (map_to_list m).
Proof.
  unfold sumOfTotals. rewrite map_fold_foldr.
  induction (map_to_list m) as [|[k v] l IH]; [done|].
  cbn [foldr uncurry]. rewrite sum_by_cons, IH. apply add_comm.
Qed.

Lemma breakdownShare_nonzero (t a : Qc) :
  t <> 0%Qc ->
  breakdownShare (Num t) (Num a) = Num (a / t * Qc_of_Z 100)%Qc.
Proof.
  intros Ht. unfold breakdownShare, div, sign. rewrite Z2Qc_inj_0.
  destruct (t ?= 0)%Qc eqn:Hc; try done.
  by apply Qceq_alt in Hc.
Qed.

Lemma breakdown_shares_sum (t : Qc) (l : list (string * number)) :
  t <> 0%Qc ->
  Forall (fun entry => isFinite entry.2 = true) l ->
  exists q, sum_by snd l = Num q /\
    sum_by (fun entry => breakdownShare (Num t) entry.2) l =
    Num (q / t * Qc_of_Z 100)%Qc.
Proof.
  intros Ht. induction 1 as [|[k v] l Hv _ (q & Hq & IH)].
  - exists 0%Qc. rewrite !sum_by_nil. unfold zero. rewrite Z2Qc_inj_0.
    split; [done|]. f_equal; try (unfold Qcdiv; ring).
  - cbn [snd] in Hv. destruct v as [a| | |]; try done.
    exists (a + q)%Qc. rewrite !sum_by_cons, Hq, IH. cbn [snd].
    rewrite breakdownShare_nonzero by done. cbn [add].
    split; [done|]. f_equal; try (unfold Qcdiv; ring).
Qed.

Lemma sum_by_fmap {A B : Type} (f : B -> number) (g : A -> B) (l : list A) :
  sum_by f (g <$> l) = sum_by (fun a => f (g a)) l.
Proof.
  induction l as [|a l IH]; [done|].
  cbn [fmap list_fmap]. by rewrite !sum_by_cons, <- IH.
Qed.

Lemma breakdown_categories (total : number) (l : list (string * number)) :
  List.map (fun entry : string * number * number => entry.1.1)
    ((fun entry : string * number =>
        (entry.1, entry.2, breakdownShare total entry.2)) <$> l) = l.*1.
Proof.
  induction l as [|x l IH]; [done|].
  cbn [fmap list_fmap List.map fst]. f_equal. exact IH.
Qed.

Lemma categoryTotals_finite (expenses : list Expense) :
  finiteAmounts expenses -> finiteTotals (categoryTotals expenses).
Proof.
  intros Hfin. apply (categoryTotals_fold expenses ∅); [|done].
  apply map_Forall_empty.
Qed.

Lemma categoryTotals_sum (expenses : list Expense) :
  finiteAmounts expenses ->
  sumOfTotals (categoryTotals expenses) = sum_by amount expenses.
Proof.
  intros Hfin. unfold categoryTotals.
  destruct (categoryTotals_fold expenses ∅) as [_ ->]; [|done|].
  - apply map_Forall_empty.
  - unfold sumOfTotals. by rewrite map_fold_empty, add_zero_l.
Qed.

End Breakdown.



(** ** The filtered view *)



(** ** The handlers of the local variant *)

Section LocalHandlers.
Context {W : Type} (env : forall r : Request, W -> Reply r * W).
Import Local.

Lemma local_submit_requests (w : W) (s : State) :
  requests env (handleSubmit s) w =
  if missingField (form s) then [ShowToast validationError]
  else
    match JSGlobal.whenTruthy (editingId s) with
    | Some _ => [ShowToast (success "Expense updated successfully!"); DateNow]
    | None =>
        [DateNow; ShowToast (success "Expense added successfully!"); DateNow]
    end.
Proof.
  unfold requests, handleSubmit.
  destruct (missingField (form s)); [done|].
  by destruct (JSGlobal.whenTruthy (editingId s)).
Qed.

Lemma local_submit_form (w : W) (s : State) :
  missingField (form s) = false ->
  exists now,
    form (outcome env (handleSubmit s) w) = emptyForm now /\
    JSGlobal.whenTruthy (editingId (outcome env (handleSubmit s) w)) = None /\
    filterCategory (outcome env (handleSubmit s) w) = filterCategory s.
Proof.
  intros Hm. unfold outcome, handleSubmit. rewrite Hm.
  destruct (JSGlobal.whenTruthy (editingId s)) as [i|] eqn:He.
  - by eexists.
  - eexists. split_and!; [done|exact He|done].
Qed.

Lemma missingField_emptyForm (now : Z) : missingField (emptyForm now) = true.
Proof. done. Qed.

Lemma unique_id_eq (e : Expense) (l : list Expense) :
  uniqueIds l -> In e l ->
  forall exp, In exp l -> id exp = id e -> exp = e.
Proof.
  unfold uniqueIds. induction l as [|x l IH]; [done|].
  cbn [List.map]. intros [Hx Hl]%NoDup_cons [->|He] exp [->|Hexp] Hid;
    try done.
  - exfalso. apply Hx. rewrite <- Hid. by apply list_elem_of_In, in_map.
  - exfalso. apply Hx. rewrite Hid. by apply list_elem_of_In, in_map.
  - by apply IH.
Qed.

Lemma map_replace_self (e : Expense) (l : list Expense) :
  (forall exp, In exp l -> id exp = id e -> exp = e) ->
  List.map (fun exp => if String.eqb (id exp) (id e) then e else exp) l = l.
Proof.
  intros Hsame. induction l as [|x l IH]; [done|]. cbn [List.map].
  rewrite IH by (intros exp Hin; apply Hsame; by right).
  destruct (String.eqb (id x) (id e)) eqn:Hx; [|done].
  apply String.eqb_eq in Hx. f_equal. symmetry. apply Hsame; [by left|done].
Qed.

Lemma filter_absent_id (target : string) (l : list Expense) :
  ~ In target (List.map id l) ->
  List.filter (fun exp => negb (String.eqb (id exp) target)) l = l.
Proof.
  intros Hnot. apply filter_other_ids, List.Forall_forall.
  intros exp Hin Hid. apply Hnot. rewrite <- Hid. by apply in_map.
Qed.

Lemma handleEdit_filled (toString : number -> string) (e : Expense) (s : State) :
  toString (amount e) <> "" -> category e <> "" -> description e <> "" ->
  missingField (form (handleEdit toString e s)) = false.
Proof.
  intros Ha Hc Hd.
  destruct (missingField (form (handleEdit toString e s))) eqn:Hm; [|done].
  apply missingField_spec in Hm. cbn in Hm. by destruct Hm as [?|[?|?]].
Qed.

Lemma whenTruthy_Some (i : string) :
  i <> "" -> JSGlobal.whenTruthy (Some i) = Some i.
Proof.
  intros Hi%String.eqb_neq. unfold JSGlobal.whenTruthy, JSGlobal.truthy.
  by rewrite Hi.
Qed.

End LocalHandlers.

(** X9: in the local variant, submitting and deleting never call the
    remote store, and each call shows exactly one notification. *)
Theorem local_handlers_stay_local {W : Type}
    (env : forall r : Request, W -> Reply r * W) (w : W)
    (s : Local.State) (target : string) :
  existsb isRemote (requests env (Local.handleSubmit s) w) = false /\
  length (List.filter isToast (requests env (Local.handleSubmit s) w)) = 1%nat /\
  existsb isRemote (requests env (Local.handleDelete target s) w) = false /\
  length (List.filter isToast (requests env (Local.handleDelete target s) w))
    = 1%nat.
Proof.
  rewrite local_submit_requests.
  destruct (missingField (Local.form s)); [done|].
  by destruct (JSGlobal.whenTruthy (Local.editingId s)).
Qed.

(** X10: in the local variant, a submission that passes the validation
    leaves an empty form dated by the clock, no record under edit and the
    filter as it was; submitting again at once is therefore rejected by the
    validation and changes nothing. *)
Theorem local_submit_resets_the_form {W : Type}
    (env : forall r : Request, W -> Reply r * W) (w w' : W) (s : Local.State) :
  missingField (Local.form s) = false ->
  let s' := outcome env (Local.handleSubmit s) w in
  (exists now, Local.form s' = emptyForm now) /\
  JSGlobal.whenTruthy (Local.editingId s') = None /\
  Local.filterCategory s' = Local.filterCategory s /\
  outcome env (Local.handleSubmit s') w' = s' /\
  requests env (Local.handleSubmit s') w' = [ShowToast validationError].
Proof.
  intros Hm s'.
  destruct (local_submit_form env w s Hm) as (now & Hform & Hedit & Hfilter).
  fold s' in Hform, Hedit, Hfilter.
  assert (Hm' : missingField (Local.form s') = true)
    by (rewrite Hform; apply missingField_emptyForm).
  split_and!; [by exists now|done|done| |].
  - unfold outcome. by rewrite submit_missing.
  - unfold requests. by rewrite submit_missing.
Qed.

Lemma local_submit_resets_witness :
  let s' := outcome offline (Local.handleSubmit adding) 1710000000000 in
  outcome offline (Local.handleSubmit s') 0 = s'.
Proof.
  assert (Hm : missingField (Local.form adding) = false) by reflexivity.
  exact (proj1 (proj2 (proj2 (proj2
    (local_submit_resets_the_form offline 1710000000000 0 adding Hm))))).
Defined.

(** X11: in the local variant, deleting by an identifier leaves no
    record that bears it, whatever the list was; deleting again changes
    nothing; deleting by an identifier that no record bears leaves the
    state as it was and still shows the notification of success; and two
    deletions give the same list in either order. *)
Theorem local_delete_is_idempotent {W : Type}
    (env : forall r : Request, W -> Reply r * W) (w w' : W)
    (s : Local.State) (target other : string) :
  let s' := outcome env (Local.handleDelete target s) w in
  ~ In target (List.map id (Local.expenses s')) /\
  outcome env (Local.handleDelete target s') w' = s' /\
  (~ In target (List.map id (Local.expenses s)) ->
     s' = s /\
     requests env (Local.handleDelete target s) w =
       [ShowToast (success "Expense deleted successfully!")]) /\
  Local.expenses
    (outcome env (Local.handleDelete other s') w') =
  Local.expenses
    (outcome env (Local.handleDelete target
       (outcome env (Local.handleDelete other s) w)) w').
Proof.
  intros s'. subst s'. destruct s as [l f e c].
  unfold outcome, requests, Local.handleDelete, Local.setExpenses.
  cbn [run bind mbind mret Prog_bind Prog_ret toast perform fst snd
       Local.expenses Local.form Local.editingId Local.filterCategory].
  split_and!.
  - intros (exp & Hid & Hin)%in_map_iff.
    apply filter_In in Hin as [_ Hne]. by rewrite Hid, String.eqb_refl in Hne.
  - f_equal. rewrite filter_filter_and. apply List.filter_ext.
    intros exp. apply andb_diag.
  - intros Hnot. split; [|done]. f_equal. by apply filter_absent_id.
  - rewrite !filter_filter_and. apply List.filter_ext.
    intros exp. apply andb_comm.
Qed.

Lemma local_delete_is_idempotent_witness :
  outcome offline (Local.handleDelete "42" adding) 0 = adding.
Proof.
  assert (Hnot : ~ In "42" (List.map id (Local.expenses adding))).
  { intros Hin. apply list_elem_of_In in Hin.
    apply (bool_decide_pack _) in Hin. by vm_compute in Hin. }
  exact (proj1 (proj1 (proj2 (proj2
    (local_delete_is_idempotent offline 0 0 adding "42" "42"))) Hnot)).
Defined.

(** X12: in the local variant, adding a record and then deleting by the
    identifier it was given restores the list, provided that identifier was
    not in use before. *)
Theorem local_create_then_delete_restores {W : Type}
    (env : forall r : Request, W -> Reply r * W) (w w' : W) (s : Local.State) :
  missingField (Local.form s) = false ->
  JSGlobal.whenTruthy (Local.editingId s) = None ->
  let created := JSString.ofZ (env DateNow w).1 in
  ~ In created (List.map id (Local.expenses s)) ->
  Local.expenses
    (outcome env
       (Local.handleDelete created (outcome env (Local.handleSubmit s) w)) w') =
  Local.expenses s.
Proof.
  intros Hm He created Hfresh.
  rewrite delete_filter, (submit_create env w s Hm He), List.filter_app.
  cbn [List.filter id]. fold created. rewrite String.eqb_refl. cbn [negb].
  rewrite filter_absent_id by done. apply app_nil_r.
Qed.

Lemma local_create_then_delete_witness :
  Local.expenses
    (outcome offline
       (Local.handleDelete "1710000000000"
          (outcome offline (Local.handleSubmit adding) 1710000000000)) 0) =
  Local.expenses adding.
Proof.
  apply (local_create_then_delete_restores offline 1710000000000 0 adding).
  - reflexivity.
  - reflexivity.
  - intros Hin. apply list_elem_of_In in Hin.
    apply (bool_decide_pack _) in Hin. by vm_compute in Hin.
Defined.

(** X13: in the local variant, putting a record under edit and
    submitting the form untouched leaves the list as it was, provided the
    identifiers are pairwise distinct, the identifier, the category and the
    description of the record are not empty, and the amount written to the
    form reads back as the amount of the record. *)
Theorem local_edit_then_submit_round_trip {W : Type}
    (env : forall r : Request, W -> Reply r * W) (w : W)
    (toString : number -> string) (e : Expense) (s : Local.State) :
  uniqueIds (Local.expenses s) ->
  In e (Local.expenses s) ->
  id e <> "" -> category e <> "" -> description e <> "" ->
  toString (amount e) <> "" ->
  JSGlobal.parseFloat (toString (amount e)) = amount e ->
  let s' := outcome env (Local.handleSubmit (Local.handleEdit toString e s)) w in
  Local.expenses s' = Local.expenses s /\
  Local.editingId s' = None.
Proof.
  intros Hu Hin Hi Hc Hd Ha Hread s'. subst s'.
  pose proof (handleEdit_filled toString e s Ha Hc Hd) as Hm.
  assert (He : JSGlobal.whenTruthy
                 (Local.editingId (Local.handleEdit toString e s)) = Some (id e))
    by (by apply whenTruthy_Some).
  split.
  - rewrite (submit_edit env w _ (id e) Hm He).
    cbn [Local.handleEdit Local.setForm Local.setEditingId Local.form
         Local.expenses Form.amount Form.category Form.description Form.date].
    rewrite Hread.
    assert (Heta : mkExpense (id e) (amount e) (category e) (description e)
                     (date e) = e) by (by destruct e).
    rewrite Heta. apply map_replace_self. by apply unique_id_eq.
  - unfold outcome, Local.handleSubmit. rewrite Hm, He. done.
Qed.

Lemma local_edit_then_submit_witness :
  Local.expenses
    (outcome offline
       (Local.handleSubmit (Local.handleEdit (fun _ => "100") lunch adding)) 0) =
  Local.expenses adding.
Proof.
  assert (Hu : uniqueIds (Local.expenses adding))
    by (apply (bool_decide_unpack _); by vm_compute).
  assert (Hin : In lunch (Local.expenses adding)) by (left; reflexivity).
  assert (Hread : JSGlobal.parseFloat "100" = amount lunch)
    by (apply number_eq; vm_compute; reflexivity).
  exact (proj1 (local_edit_then_submit_round_trip offline 0 (fun _ => "100")
    lunch adding Hu Hin ltac:(discriminate) ltac:(discriminate)
    ltac:(discriminate) ltac:(discriminate) Hread)).
Defined.

(** X14: in the local variant, when the record under edit is deleted
    before the form is submitted, the submission changes no record and
    still shows the notification that the expense was updated. *)
Theorem local_submit_after_deleting_the_edited_record {W : Type}
    (env : forall r : Request, W -> Reply r * W) (w w' : W)
    (toString : number -> string) (e : Expense) (s : Local.State) :
  id e <> "" -> category e <> "" -> description e <> "" ->
  toString (amount e) <> "" ->
  let deleted :=
    outcome env (Local.handleDelete (id e) (Local.handleEdit toString e s)) w in
  let s' := outcome env (Local.handleSubmit deleted) w' in
  Local.expenses s' = Local.expenses deleted /\
  ~ In (id e) (List.map id (Local.expenses s')) /\
  requests env (Local.handleSubmit deleted) w' =
    [ShowToast (success "Expense updated successfully!"); DateNow].
Proof.
  intros Hi Hc Hd Ha deleted s'.
  assert (Hm : missingField (Local.form deleted) = false)
    by (by apply (handleEdit_filled toString e s)).
  assert (He : JSGlobal.whenTruthy (Local.editingId deleted) = Some (id e))
    by (by apply whenTruthy_Some).
  assert (Hgone : ~ In (id e) (List.map id (Local.expenses deleted))).
  { subst deleted. rewrite delete_filter.
    intros (exp & Hid & Hin)%in_map_iff.
    apply filter_In in Hin as [_ Hne]. by rewrite Hid, String.eqb_refl in Hne. }
  assert (Hsame : Local.expenses s' = Local.expenses deleted).
  { subst s'. rewrite (submit_edit env w' deleted (id e) Hm He).
    apply map_other_ids, List.Forall_forall.
    intros exp Hin Hid. apply Hgone. rewrite <- Hid. by apply in_map. }
  split_and!; [done|by rewrite Hsame|].
  rewrite local_submit_requests, Hm, He. done.
Qed.

Lemma local_submit_after_deleting_witness :
  Local.expenses
    (outcome offline
       (Local.handleSubmit
          (outcome offline
             (Local.handleDelete (id lunch)
                (Local.handleEdit (fun _ => "100") lunch adding)) 0)) 0) =
  [busPass].
Proof.
  exact (proj1 (local_submit_after_deleting_the_edited_record offline 0 0
    (fun _ => "100") lunch adding ltac:(discriminate) ltac:(discriminate)
    ltac:(discriminate) ltac:(discriminate))).
Defined.

(** ** The handlers of the persisted variant *)

Ltac run_handler :=
  cbn [run bind mbind mret Prog_bind Prog_ret toast perform fst snd].

Section PersistedHandlers.
Context {W : Type} (env : forall r : Request, W -> Reply r * W).
Import Persisted.

Lemma loadExpenses_state (w : W) (s : State) :
  outcome env (loadExpenses s) w =
  setLoading false (outcome env (loadExpenses s) w) /\
  form (outcome env (loadExpenses s) w) = form s /\
  editingId (outcome env (loadExpenses s) w) = editingId s /\
  filterCategory (outcome env (loadExpenses s) w) = filterCategory s.
Proof.
  unfold outcome, loadExpenses. run_handler.
  destruct (env AuthGetUser w) as [[[u|]|] w1]; run_handler; try done.
  by destruct (env SelectExpenses w1) as [[[data [msg|]]|] w2].
Qed.

Lemma loadExpenses_requests (w : W) (s : State) :
  existsb isWrite (requests env (loadExpenses s) w) = false /\
  (exists rest, requests env (loadExpenses s) w = AuthGetUser :: rest).
Proof.
  unfold requests, loadExpenses. run_handler.
  destruct (env AuthGetUser w) as [[[u|]|] w1]; run_handler;
    try (split; [done|by eexists]).
  destruct (env SelectExpenses w1) as [[[data [msg|]]|] w2]; run_handler;
    (split; [done|by eexists]).
Qed.

Lemma reloadAndReset_run (w : W) (s : State) :
  let loaded := run env (loadExpenses s) w in
  run env (reloadAndReset s) w =
  (setForm (emptyForm (env DateNow loaded.1.2).1) loaded.1.1,
   (env DateNow loaded.1.2).2,
   loaded.2 ++ [DateNow]).
Proof.
  unfold reloadAndReset, mbind, Prog_bind. rewrite run_bind. done.
Qed.

End PersistedHandlers.

(** X15: loading the expenses never writes to the remote store and
    changes nothing of the state but the list and the loading flag, which
    is off afterwards in every case; it asks for the user first and selects
    the rows exactly when there is one; the list is either left as it was
    or replaced by the rows selected without error, an absent result
    counting as no rows. *)
Theorem loadExpenses_only_replaces_the_list {W : Type}
    (env : forall r : Request, W -> Reply r * W) (w : W) (s : Persisted.State) :
  let s' := outcome env (Persisted.loadExpenses s) w in
  let rs := requests env (Persisted.loadExpenses s) w in
  Persisted.loading s' = false /\
  Persisted.form s' = Persisted.form s /\
  Persisted.editingId s' = Persisted.editingId s /\
  Persisted.filterCategory s' = Persisted.filterCategory s /\
  existsb isWrite rs = false /\
  hd_error rs = Some AuthGetUser /\
  (In SelectExpenses rs <->
   exists user, (env AuthGetUser w).1 = Fulfilled (Some user)) /\
  (Persisted.expenses s' = Persisted.expenses s \/
   exists data,
     (env SelectExpenses (env AuthGetUser w).2).1 = Fulfilled (data, None) /\
     Persisted.expenses s' = default [] data).
Proof.
  unfold outcome, requests, Persisted.loadExpenses. run_handler.
  destruct (env AuthGetUser w) as [[[u|]|] w1]; run_handler.
  - destruct (env SelectExpenses w1) as [[[data [msg|]]|] w2]; run_handler;
      (split_and!; try done;
       [split; [by eexists|intros _; cbn; tauto] | try by left]).
    right. by exists data.
  - split_and!; try done; [|by left].
    cbn [In]. split; [intuition discriminate|by intros [? ?]].
  - split_and!; try done; [|by left].
    cbn [In]. split; [intuition discriminate|by intros [? ?]].
Qed.

(** X16: signing out leaves the state of the calculator as it was and
    shows one notification; it navigates to the login page exactly when the
    sign-out call returned without an error, and performs nothing else. *)
Theorem handleLogout_navigates_only_after_sign_out {W : Type}
    (env : forall r : Request, W -> Reply r * W) (w : W) (s : Persisted.State) :
  let rs := requests env (Persisted.handleLogout s) w in
  outcome env (Persisted.handleLogout s) w = s /\
  hd_error rs = Some AuthSignOut /\
  length (List.filter isWrite rs) = 1%nat /\
  length (List.filter isToast rs) = 1%nat /\
  (In (Navigate "/login") rs <-> (env AuthSignOut w).1 = Fulfilled None) /\
  (forall path, In (Navigate path) rs -> path = "/login").
Proof.
  unfold outcome, requests, Persisted.handleLogout. run_handler.
  destruct (env AuthSignOut w) as [[[msg|]|] w1]; run_handler; cbn [In];
    (split_and!; try done;
     [split; [try done; intuition discriminate|try done; intros _; tauto]
     |intros path; intuition congruence]).
Qed.

Section PersistedWrites.
Context {W : Type} (env : forall r : Request, W -> Reply r * W).
Import Persisted.

Lemma filter_none {A : Type} (p : A -> bool) (l : list A) :
  existsb p l = false -> List.filter p l = [].
Proof.
  induction l as [|a l IH]; [done|]. cbn [existsb List.filter].
  intros [Ha Hl]%orb_false_elim. rewrite Ha. by apply IH.
Qed.

Lemma reload_has_no_write (w : W) (s : State) :
  List.filter isWrite ((run env (loadExpenses s) w).2 ++ [DateNow]) = [].
Proof.
  rewrite List.filter_app. cbn [List.filter isWrite].
  rewrite filter_none; [done|]. apply (loadExpenses_requests env w s).
Qed.

Lemma reloadAndReset_state (w : W) (s : State) :
  let s' := (run env (reloadAndReset s) w).1.1 in
  (exists now, form s' = emptyForm now) /\
  loading s' = false /\
  editingId s' = editingId s /\
  filterCategory s' = filterCategory s.
Proof.
  rewrite reloadAndReset_run. cbn [fst snd].
  destruct (loadExpenses_state env w s) as (Hl & _ & He & Hf).
  unfold outcome in Hl, He, Hf.
  split_and!; [by eexists| |done|done].
  rewrite Hl. done.
Qed.

Lemma reloadAndReset_list (w : W) (s : State) :
  expenses (run env (reloadAndReset s) w).1.1 =
  expenses (outcome env (loadExpenses s) w).
Proof. rewrite reloadAndReset_run. done. Qed.

Lemma loadExpenses_list (w : W) (s : State) :
  expenses (outcome env (loadExpenses s) w) = expenses s \/
  In SelectExpenses (requests env (loadExpenses s) w).
Proof.
  unfold outcome, requests, loadExpenses. run_handler.
  destruct (env AuthGetUser w) as [[[u|]|] w1]; run_handler;
    [|by left|by left].
  right. destruct (env SelectExpenses w1) as [[[data [msg|]]|] w2];
    run_handler; cbn [In]; tauto.
Qed.

End PersistedWrites.

(** X17: in the persisted variant, a submission performs at most one
    write. When it shows no notification of success, the state is exactly
    as it was and nothing was reloaded. When it shows one, it has written
    once and then reloaded, the form is empty and dated by the clock, no
    record is under edit, the loading flag is off and the filter is as it
    was. The list itself changes only through a reload. *)
Theorem persisted_submit_changes_state_only_on_success {W : Type}
    (env : forall r : Request, W -> Reply r * W) (w : W) (s : Persisted.State) :
  let s' := outcome env (Persisted.handleSubmit s) w in
  let rs := requests env (Persisted.handleSubmit s) w in
  (length (List.filter isWrite rs) <= 1)%nat /\
  (existsb isSuccess rs = false -> s' = s /\ ~ In SelectExpenses rs) /\
  (existsb isSuccess rs = true ->
     length (List.filter isWrite rs) = 1%nat /\
     In AuthGetUser rs /\
     (exists now, Persisted.form s' = emptyForm now) /\
     JSGlobal.whenTruthy (Persisted.editingId s') = None /\
     Persisted.loading s' = false /\
     Persisted.filterCategory s' = Persisted.filterCategory s) /\
  (Persisted.expenses s' = Persisted.expenses s \/ In SelectExpenses rs).
Proof.
  unfold outcome, requests, Persisted.handleSubmit.
  destruct (missingField (Persisted.form s)); run_handler.
  { split_and!; [cbn; lia| |done|by left].
    intros _. split; [done|]. cbn [In]. intuition discriminate. }
  destruct (JSGlobal.whenTruthy (Persisted.editingId s)) as [i|] eqn:He;
    run_handler.
  - destruct (env (UpdateExpense _ i) w) as [[[msg|]|] w1]; run_handler.
    + split_and!; [cbn; lia| |done|by left].
      intros _. split; [done|]. cbn [In]. intuition discriminate.
    + set (w2 := (env (ShowToast _) w1).2).
      destruct (reloadAndReset_state env w2 (Persisted.setEditingId None s))
        as ((now & Hform) & Hload & Hedit & Hfilter).
      pose proof (reload_has_no_write env w2 (Persisted.setEditingId None s))
        as Hwrites.
      pose proof (loadExpenses_requests env w2 (Persisted.setEditingId None s))
        as [_ [rest Hrest]].
      pose proof (loadExpenses_list env w2 (Persisted.setEditingId None s))
        as Hlist.
      rewrite <- reloadAndReset_list in Hlist.
      rewrite reloadAndReset_run in *. cbn [fst snd] in *.
      unfold requests in *.
      cbn [List.filter isWrite]. rewrite Hwrites.
      split_and!; [cbn; lia|done| |].
      * intros _. split_and!; [done| |by exists now|by rewrite Hedit|done|done].
        right. right. rewrite Hrest. left. done.
      * destruct Hlist as [Hlist|Hlist]; [by left|].
        right. right. right. apply in_or_app. by left.
    + split_and!; [cbn; lia| |done|by left].
      intros _. split; [done|]. cbn [In]. intuition discriminate.
  - destruct (env AuthGetUser w) as [[[u|]|] w1]; run_handler.
    + destruct (env (InsertExpense _ u) w1) as [[[msg|]|] w2]; run_handler.
      * split_and!; [cbn; lia| |done|by left].
        intros _. split; [done|]. cbn [In]. intuition discriminate.
      * set (w3 := (env (ShowToast _) w2).2).
        destruct (reloadAndReset_state env w3 s)
          as ((now & Hform) & Hload & Hedit & Hfilter).
        pose proof (reload_has_no_write env w3 s) as Hwrites.
        pose proof (loadExpenses_list env w3 s) as Hlist.
        rewrite <- reloadAndReset_list in Hlist.
        rewrite reloadAndReset_run in *. cbn [fst snd] in *.
        unfold requests in *.
        cbn [List.filter isWrite]. rewrite Hwrites.
        split_and!; [cbn; lia|done| |].
        -- intros _.
           split_and!; [done|by left|by exists now|by rewrite Hedit|done|done].
        -- destruct Hlist as [Hlist|Hlist]; [by left|].
           right. right. right. right. apply in_or_app. by left.
      * split_and!; [cbn; lia| |done|by left].
        intros _. split; [done|]. cbn [In]. intuition discriminate.
    + split_and!; [cbn; lia| |done|by left].
      intros _. split; [done|]. cbn [In]. intuition discriminate.
    + split_and!; [cbn; lia| |done|by left].
      intros _. split; [done|]. cbn [In]. intuition discriminate.
Qed.

Lemma persisted_submit_changes_state_witness :
  Persisted.loading
    (outcome (online (Some "user-1")) (Persisted.handleSubmit persistedAdding)
       (1710000000000, [lunch])) = false.
Proof.
  assert (Hs : existsb isSuccess
                 (requests (online (Some "user-1"))
                    (Persisted.handleSubmit persistedAdding)
                    (1710000000000, [lunch])) = true) by reflexivity.
  exact (proj1 (proj2 (proj2 (proj2 (proj2
    (proj1 (proj2 (proj2
       (persisted_submit_changes_state_only_on_success
          (online (Some "user-1")) (1710000000000, [lunch]) persistedAdding)))
       Hs)))))).
Defined.

Section PersistedRequests.
Context {W : Type} (env : forall r : Request, W -> Reply r * W).
Import Persisted.

Lemma existsb_false_In {A : Type} (p : A -> bool) (l : list A) (a : A) :
  existsb p l = false -> In a l -> p a = false.
Proof.
  intros Hl Hin. destruct (p a) eqn:Ha; [|done].
  rewrite <- Hl. symmetry. apply existsb_exists. by exists a.
Qed.

Lemma reload_write_free (w : W) (s : State) (r : Request) :
  In r ((run env (loadExpenses s) w).2 ++ [DateNow]) -> isWrite r = false.
Proof.
  intros [Hin|[<-|[]]]%in_app_or; [|done].
  apply (existsb_false_In isWrite _ r (proj1 (loadExpenses_requests env w s))).
  exact Hin.
Qed.

End PersistedRequests.

(** X18: in the persisted variant, the only write a submission of a
    filled form can perform carries the row of the form, its amount read by
    [parseFloat]: an update of the record under edit, sent first and without
    asking for the user, or else an insertion under the identifier of the
    signed-in user. Without a user it navigates to the login page and
    writes nothing. The notification of success is shown exactly when that
    write returned without an error. *)
Theorem persisted_submit_writes_the_form {W : Type}
    (env : forall r : Request, W -> Reply r * W) (w : W) (s : Persisted.State) :
  missingField (Persisted.form s) = false ->
  let row := rowOfForm (Persisted.form s) in
  let rs := requests env (Persisted.handleSubmit s) w in
  match JSGlobal.whenTruthy (Persisted.editingId s) with
  | Some i =>
      hd_error rs = Some (UpdateExpense row i) /\
      (forall r, In r rs -> isWrite r = true -> r = UpdateExpense row i) /\
      (existsb isSuccess rs = true <->
       (env (UpdateExpense row i) w).1 = Fulfilled None)
  | None =>
      hd_error rs = Some AuthGetUser /\
      (forall r, In r rs -> isWrite r = true ->
         exists user, (env AuthGetUser w).1 = Fulfilled (Some user) /\
                      r = InsertExpense row user) /\
      ((env AuthGetUser w).1 = Fulfilled None ->
         rs = [AuthGetUser; Navigate "/login"]) /\
      (existsb isSuccess rs = true <->
       exists user,
         (env AuthGetUser w).1 = Fulfilled (Some user) /\
         (env (InsertExpense row user) (env AuthGetUser w).2).1 = Fulfilled None)
  end.
Proof.
  intros Hm row rs. subst rs row.
  unfold requests, Persisted.handleSubmit, rowOfForm. rewrite Hm.
  destruct (JSGlobal.whenTruthy (Persisted.editingId s)) as [i|]; run_handler.
  - destruct (env (UpdateExpense _ i) w) as [[[msg|]|] w1]; run_handler.
    + split_and!; [done| |done].
      intros r [<-|[<-|[]]]; done.
    + rewrite reloadAndReset_run. cbn [fst snd].
      split_and!; [done| |done].
      intros r [<-|[<-|Hin]]; try done.
      intros Hw. by rewrite (reload_write_free env _ _ r Hin) in Hw.
    + split_and!; [done| |done].
      intros r [<-|[<-|[]]]; done.
  - destruct (env AuthGetUser w) as [[[u|]|] w1]; run_handler.
    + destruct (env (InsertExpense _ u) w1) as [[[msg|]|] w2] eqn:Hins;
        run_handler.
      * split_and!; [done| |done|].
        -- intros r [<-|[<-|[<-|[]]]]; try done. intros _. by exists u.
        -- split; [done|]. intros (user & [= <-] & Hreply).
           rewrite Hins in Hreply. done.
      * rewrite reloadAndReset_run. cbn [fst snd].
        split_and!; [done| |done|].
        -- intros r [<-|[<-|[<-|Hin]]]; try done.
           ++ intros _. by exists u.
           ++ intros Hw. by rewrite (reload_write_free env _ _ r Hin) in Hw.
        -- split; [|done]. intros _. exists u. by rewrite Hins.
      * split_and!; [done| |done|].
        -- intros r [<-|[<-|[<-|[]]]]; try done. intros _. by exists u.
        -- split; [done|]. intros (user & [= <-] & Hreply).
           rewrite Hins in Hreply. done.
    + split_and!; [done| |done|].
      * intros r [<-|[<-|[]]]; done.
      * split; [done|]. by intros (user & ? & _).
    + split_and!; [done| |done|].
      * intros r [<-|[<-|[]]]; done.
      * split; [done|]. by intros (user & ? & _).
Qed.

Lemma persisted_submit_writes_witness :
  hd_error (requests readOnly (Persisted.handleSubmit persistedEditing) 0) =
  Some (UpdateExpense (rowOfForm (Persisted.form persistedEditing))
          "1704450000000").
Proof.
  assert (Hm : missingField (Persisted.form persistedEditing) = false)
    by reflexivity.
  exact (proj1 (persisted_submit_writes_the_form readOnly 0 persistedEditing Hm)).
Defined.

(** X19: in the persisted variant, deleting sends the deletion first
    and is the only write; it never touches the form, the record under edit
    or the filter. When the deletion fails, the state is exactly as it was
    and nothing else is requested but the notification; when it succeeds,
    the notification of success is followed by a reload. The list changes
    only through that reload. *)
Theorem persisted_delete_reloads_only_on_success {W : Type}
    (env : forall r : Request, W -> Reply r * W) (w : W)
    (s : Persisted.State) (target : string) :
  let s' := outcome env (Persisted.handleDelete target s) w in
  let rs := requests env (Persisted.handleDelete target s) w in
  let reply := (env (DeleteExpense target) w).1 in
  hd_error rs = Some (DeleteExpense target) /\
  length (List.filter isWrite rs) = 1%nat /\
  Persisted.form s' = Persisted.form s /\
  Persisted.editingId s' = Persisted.editingId s /\
  Persisted.filterCategory s' = Persisted.filterCategory s /\
  (reply <> Fulfilled None ->
     s' = s /\ length rs = 2%nat /\ existsb isSuccess rs = false) /\
  (reply = Fulfilled None ->
     existsb isSuccess rs = true /\ In AuthGetUser rs /\
     Persisted.loading s' = false) /\
  (Persisted.expenses s' = Persisted.expenses s \/ In SelectExpenses rs).
Proof.
  unfold outcome, requests, Persisted.handleDelete. run_handler.
  destruct (env (DeleteExpense target) w) as [[[msg|]|] w1]; run_handler;
    try (split_and!; by try left).
  set (w2 := (env (ShowToast _) w1).2).
  destruct (loadExpenses_state env w2 s) as (Hl & Hf & He & Hc).
  destruct (loadExpenses_requests env w2 s) as [Hw [rest Hrest]].
  pose proof (loadExpenses_list env w2 s) as Hlist.
  unfold outcome, requests in *.
  cbn [List.filter isWrite]. rewrite (filter_none _ _ Hw).
  split_and!; try done.
  - intros _. split_and!; [done| |by rewrite Hl].
    right. right. rewrite Hrest. by left.
  - destruct Hlist as [Hlist|Hlist]; [by left|].
    right. right. by right.
Qed.

Lemma persisted_delete_witness :
  outcome readOnly (Persisted.handleDelete "1704450000000" persistedAdding) 0 =
  persistedAdding.
Proof.
  assert (Hfail : (readOnly (DeleteExpense "1704450000000") 0).1 <>
                  Fulfilled None) by discriminate.
  exact (proj1 (proj1 (proj2 (proj2 (proj2 (proj2 (proj2
    (persisted_delete_reloads_only_on_success readOnly 0 persistedAdding
       "1704450000000")))))) Hfail)).
Defined.

(** X20: in the persisted variant, putting a record under edit and
    submitting sends, first and as the only write, an update of that
    record's identifier with its category, description and date and the
    amount read back from the form. When the update fails, the form and the
    record under edit are kept as the edit left them; when it succeeds, no
    record is under edit any more. *)
Theorem persisted_edit_then_submit_updates_that_record {W : Type}
    (env : forall r : Request, W -> Reply r * W) (w : W)
    (toString : number -> string) (e : Expense) (s : Persisted.State) :
  id e <> "" -> category e <> "" -> description e <> "" ->
  toString (amount e) <> "" ->
  let edited := PersistedEdit.handleEdit toString e s in
  let update :=
    UpdateExpense
      (Row.mk (JSGlobal.parseFloat (toString (amount e))) (category e)
         (description e) (date e))
      (id e) in
  let s' := outcome env (Persisted.handleSubmit edited) w in
  let rs := requests env (Persisted.handleSubmit edited) w in
  hd_error rs = Some update /\
  List.filter isWrite rs = [update] /\
  Persisted.expenses edited = Persisted.expenses s /\
  ((env update w).1 <> Fulfilled None -> s' = edited) /\
  ((env update w).1 = Fulfilled None -> Persisted.editingId s' = None).
Proof.
  intros Hi Hc Hd Ha edited update s' rs. subst s' rs update.
  assert (Hm : missingField (Persisted.form edited) = false).
  { destruct (missingField (Persisted.form edited)) eqn:Hm; [|done].
    apply missingField_spec in Hm. cbn in Hm. by destruct Hm as [?|[?|?]]. }
  assert (He : JSGlobal.whenTruthy (Persisted.editingId edited) = Some (id e))
    by (by apply whenTruthy_Some).
  unfold outcome, requests, Persisted.handleSubmit. rewrite Hm, He.
  run_handler.
  change (Persisted.form edited)
    with (Form.mk (toString (amount e)) (category e) (description e) (date e)).
  cbn [Form.amount Form.category Form.description Form.date].
  destruct (env (UpdateExpense _ (id e)) w) as [[[msg|]|] w1]; run_handler;
    try (by split_and!).
  rewrite reloadAndReset_run. cbn [fst snd List.filter isWrite].
  rewrite reload_has_no_write.
  split_and!; try done. intros _.
  destruct (loadExpenses_state env (env (ShowToast (success
              "Expense updated successfully!")) w1).2
              (Persisted.setEditingId None edited)) as (_ & _ & Hedit & _).
  exact Hedit.
Qed.

Lemma persisted_edit_then_submit_witness :
  outcome readOnly
    (Persisted.handleSubmit
       (PersistedEdit.handleEdit (fun _ => "100") lunch persistedAdding)) 0 =
  PersistedEdit.handleEdit (fun _ => "100") lunch persistedAdding.
Proof.
  assert (Hfail :
    (readOnly
       (UpdateExpense
          (Row.mk (JSGlobal.parseFloat "100") (category lunch)
             (description lunch) (date lunch))
          (id lunch)) 0).1 <> Fulfilled None) by discriminate.
  exact (proj1 (proj2 (proj2 (proj2
    (persisted_edit_then_submit_updates_that_record readOnly 0
       (fun _ => "100") lunch persistedAdding ltac:(discriminate)
       ltac:(discriminate) ltac:(discriminate) ltac:(discriminate)))))
    Hfail).
Defined.

(** ** The login form *)

(** X21: the login handler, followed by its timer, shows exactly one
    notification and ends with the loading flag off and the fields as they
    were. It writes to the local storage and navigates exactly when the
    identifier is "admin" and the password is "password". It sets no
    timer exactly when a field is empty; otherwise the loading flag is on
    and nothing has happened until the timer fires after 1000 ms, and what
    the timer does is decided by the fields at the time of the click,
    whatever the state is when it fires. *)
Theorem login_accepts_only_the_fixed_credentials (s : Login.State) :
  let clicked := Login.handleLogin s in
  let finished := Login.login s in
  Login.isLoading finished.1 = false /\
  Login.userId finished.1 = Login.userId s /\
  Login.password finished.1 = Login.password s /\
  length (List.filter isToasted finished.2) = 1%nat /\
  (existsb signsIn finished.2 = true <->
   Login.userId s = "admin" /\ Login.password s = "password") /\
  (clicked.2 = None <-> Login.userId s = "" \/ Login.password s = "") /\
  (forall timer, clicked.2 = Some timer ->
     Login.delay timer = 1000 /\
     Login.isLoading clicked.1.1 = true /\
     clicked.1.2 = [] /\
     forall later,
       (Login.callback timer later).2 = (Login.callback timer s).2 /\
       Login.isLoading (Login.callback timer later).1 = false /\
       Login.userId (Login.callback timer later).1 = Login.userId later /\
       Login.password (Login.callback timer later).1 = Login.password later).
Proof.
  destruct s as [u p l]. unfold Login.login, Login.handleLogin, JSGlobal.truthy.
  cbn [Login.userId Login.password Login.isLoading Login.setIsLoading].
  destruct (String.eqb_spec u "") as [->|Hu]; cbn [negb orb].
  { split_and!; try done; [|by split; [intros _; left|]].
    split; [done|]. by intros [? _]. }
  destruct (String.eqb_spec p "") as [->|Hp]; cbn [negb orb].
  { split_and!; try done; [|by split; [intros _; right|]].
    split; [done|]. by intros [_ ?]. }
  cbn [fst snd Login.callback Login.delay app].
  assert (Htimer : forall timer : Login.Timer,
            Some (Login.mkTimer 1000 (fun later =>
              (Login.setIsLoading false later,
               if (String.eqb u "admin" && String.eqb p "password")%bool
               then [Login.LocalStorageSetItem "isLoggedIn" "true";
                     Login.LocalStorageSetItem "userId" u;
                     Login.Toasted (success "Login successful!");
                     Login.Navigated "/"]
               else [Login.Toasted (failure "Invalid User ID or Password")])))
            = Some timer ->
            Login.delay timer = 1000 /\ true = true /\
            @nil Login.Effect = [] /\
            forall later,
              (Login.callback timer later).2 =
                (Login.callback timer (Login.mkState u p l)).2 /\
              Login.isLoading (Login.callback timer later).1 = false /\
              Login.userId (Login.callback timer later).1 = Login.userId later /\
              Login.password (Login.callback timer later).1 = Login.password later).
  { intros timer [= <-]. split_and!; try done; by intros [u' p' l']. }
  destruct (String.eqb_spec u "admin") as [->|Hadmin]; cbn [andb].
  - destruct (String.eqb_spec p "password") as [->|Hpw].
    + split_and!; try done. split; [done|]. intros [?|?]; done.
    + split_and!; try done.
      * split; [done|]. by intros [_ ?].
      * split; [done|]. intros [?|?]; done.
  - split_and!; try done.
    + split; [done|]. by intros [? _].
    + split; [done|]. intros [?|?]; done.
Qed.

Lemma login_witness :
  existsb signsIn (Login.login (Login.mkState "admin" "password" false)).2 = true.
Proof.
  apply (proj2 (proj1 (proj2 (proj2 (proj2 (proj2
    (login_accepts_only_the_fixed_credentials
       (Login.mkState "admin" "password" false)))))))).
  split; reflexivity.
Defined.

(** ** The date of an untouched form *)

Section DefaultDate.
Import JSDate.

Lemma year_day_of_era (doe : Z) :
  0 <= doe <= 146096 ->
  let yoe := (doe - doe / 1460 + doe / 36524 - doe / 146096) / 365 in
  let doy := doe - (365 * yoe + yoe / 4 - yoe / 100) in
  0 <= yoe <= 399 /\ 0 <= doy <= 365 /\
  (doy = 365 -> ((yoe + 1) mod 4 = 0 /\ (yoe + 1) mod 100 <> 0) \/ yoe = 399).
Proof.
  intros H yoe doy. subst doy yoe. Z.div_mod_to_equations. lia.
Qed.

Lemma day_of_month (doy : Z) :
  0 <= doy <= 365 ->
  let mp := (5 * doy + 2) / 153 in
  let d := doy - (153 * mp + 2) / 5 + 1 in
  let m := if mp <? 10 then mp + 3 else mp - 9 in
  1 <= m <= 12 /\ 1 <= d /\
  (m <> 2 -> forall y, d <= daysInMonth y m) /\
  (m = 2 -> d <= 29 /\ (d = 29 -> doy = 365)).
Proof.
  intros H mp d m.
  assert (Hdef : mp = (5 * doy + 2) / 153) by done.
  clearbody mp.
  assert (Hc : mp = 0 \/ mp = 1 \/ mp = 2 \/ mp = 3 \/ mp = 4 \/ mp = 5 \/
               mp = 6 \/ mp = 7 \/ mp = 8 \/ mp = 9 \/ mp = 10 \/ mp = 11)
    by (subst mp; Z.div_mod_to_equations; lia).
  subst d m.
  repeat (destruct Hc as [Hc|Hc]); rewrite Hc in *; clear Hc;
    (split_and!; intros; try (unfold daysInMonth); simpl in *;
     try lia; Z.div_mod_to_equations; lia).
Qed.

Lemma leap_of_era (yoe era : Z) :
  ((yoe + 1) mod 4 = 0 /\ (yoe + 1) mod 100 <> 0) \/ yoe = 399 ->
  isLeapYear (yoe + era * 400 + 1) = true.
Proof.
  intros H. unfold isLeapYear.
  destruct (Z.eqb_spec ((yoe + era * 400 + 1) mod 400) 0) as [H400|H400];
    [by rewrite orb_true_r|].
  destruct (Z.eqb_spec ((yoe + era * 400 + 1) mod 4) 0) as [H4|H4];
    destruct (Z.eqb_spec ((yoe + era * 400 + 1) mod 100) 0) as [H100|H100];
    cbn; try done; exfalso; revert H H400 H4 H100;
    Z.div_mod_to_equations; lia.
Qed.

Lemma civil_from_days_valid (z : Z) :
  1 <= (civil_from_days z).1.2 <= 12 /\
  1 <= (civil_from_days z).2 <=
    daysInMonth (civil_from_days z).1.1 (civil_from_days z).1.2.
Proof.
  unfold civil_from_days. cbv zeta. cbn [fst snd].
  set (era := (z + 719468) / 146097).
  set (doe := z + 719468 - era * 146097).
  assert (Hdoe : 0 <= doe <= 146096)
    by (subst doe era; Z.div_mod_to_equations; lia).
  destruct (year_day_of_era doe Hdoe) as (Hyoe & Hdoy & Hleap).
  cbv zeta in Hyoe, Hdoy, Hleap.
  set (yoe := (doe - doe / 1460 + doe / 36524 - doe / 146096) / 365) in *.
  set (doy := doe - (365 * yoe + yoe / 4 - yoe / 100)) in *.
  destruct (day_of_month doy Hdoy) as (Hm & Hd & Hother & Hfeb).
  cbv zeta in Hm, Hd, Hother, Hfeb.
  set (mp := (5 * doy + 2) / 153) in *.
  set (d := doy - (153 * mp + 2) / 5 + 1) in *.
  set (m := if mp <? 10 then mp + 3 else mp - 9) in *.
  split; [done|]. split; [done|].
  destruct (Z.eq_dec m 2) as [Hm2|Hm2]; [|by apply Hother].
  destruct (Hfeb Hm2) as [H29 H365]. rewrite Hm2.
  cbn [Z.leb Z.compare Pos.compare Pos.compare_cont].
  unfold daysInMonth. cbn [Z.eqb Pos.eqb].
  destruct (Z.eq_dec d 29) as [Hd29|Hd29].
  - rewrite leap_of_era by (apply Hleap; by apply H365). lia.
  - destruct (isLeapYear _); lia.
Qed.

Lemma year_digits :
  forallb
    (fun y =>
       match list_ascii_of_string (JSString.padStart 4 "0" (JSString.ofZ y)) with
       | [a; b; c; d] =>
           match digits4 a b c d with
           | Some v => v =? y
           | None => false
           end
       | _ => false
       end)
    (List.map Z.of_nat (seq 0 (Z.to_nat 10000))) = true.
Proof. vm_compute. reflexivity. Qed.

Lemma two_digits :
  forallb
    (fun m =>
       match list_ascii_of_string (JSString.padStart 2 "0" (JSString.ofZ m)) with
       | [a; b] =>
           match digits2 a b with
           | Some v => v =? m
           | None => false
           end
       | _ => false
       end)
    (List.map Z.of_nat (seq 0 (Z.to_nat 100))) = true.
Proof. vm_compute. reflexivity. Qed.

Lemma in_range (n z : Z) :
  0 <= z < n -> In z (List.map Z.of_nat (seq 0 (Z.to_nat n))).
Proof.
  intros H. apply in_map_iff. exists (Z.to_nat z). split; [lia|].
  apply in_seq. lia.
Qed.

Lemma year_string (y : Z) :
  0 <= y <= 9999 ->
  exists a b c d,
    list_ascii_of_string (JSString.padStart 4 "0" (JSString.ofZ y)) = [a; b; c; d] /\
    digits4 a b c d = Some y.
Proof.
  intros H.
  pose proof (proj1 (forallb_forall _ _) year_digits y
                (in_range 10000 y ltac:(lia))) as Hy.
  cbv beta in Hy.
  destruct (list_ascii_of_string _) as [|a [|b [|c [|d [|? ?]]]]]; try done.
  destruct (digits4 a b c d) as [v|] eqn:Hv; [|done].
  apply Z.eqb_eq in Hy as ->. by exists a, b, c, d.
Qed.

Lemma two_digit_string (m : Z) :
  0 <= m <= 99 ->
  exists a b,
    list_ascii_of_string (JSString.padStart 2 "0" (JSString.ofZ m)) = [a; b] /\
    digits2 a b = Some m.
Proof.
  intros H.
  pose proof (proj1 (forallb_forall _ _) two_digits m
                (in_range 100 m ltac:(lia))) as Hy.
  cbv beta in Hy.
  destruct (list_ascii_of_string _) as [|a [|b [|? ?]]]; try done.
  destruct (digits2 a b) as [v|] eqn:Hv; [|done].
  apply Z.eqb_eq in Hy as ->. by exists a, b.
Qed.

Lemma list_ascii_of_string_app (s t : string) :
  list_ascii_of_string (s ++ t)%string =
  list_ascii_of_string s ++ list_ascii_of_string t.
Proof.
  induction s as [|c s IH]; [done|].
  change (list_ascii_of_string (String c s ++ t)%string)
    with (c :: list_ascii_of_string (s ++ t)%string).
  by rewrite IH.
Qed.

Lemma daysInMonth_le_31 (y m : Z) : daysInMonth y m <= 31.
Proof.
  unfold daysInMonth. destruct (m =? 2); [destruct (isLeapYear y); lia|].
  destruct (_ || _); lia.
Qed.

Lemma toISODate_parses (t : Z) :
  0 <= YearFromTime t <= 9999 ->
  parseISODate (JSGlobal.toISODate t) = Some (civil_from_days (Day t)).
Proof.
  unfold YearFromTime, JSGlobal.toISODate. intros Hy.
  destruct (civil_from_days_valid (Day t)) as [Hm Hd].
  pose proof (daysInMonth_le_31 (civil_from_days (Day t)).1.1
                (civil_from_days (Day t)).1.2) as H31.
  destruct (civil_from_days (Day t)) as [[y m] d]. cbn [fst snd] in *.
  assert (Hrange : (0 <=? y) && (y <=? 9999) = true) by lia.
  rewrite Hrange.
  destruct (year_string y Hy) as (y1 & y2 & y3 & y4 & Hys & Hyv).
  destruct (two_digit_string m ltac:(lia)) as (m1 & m2 & Hms & Hmv).
  destruct (two_digit_string d ltac:(lia)) as (d1 & d2 & Hds & Hdv).
  unfold parseISODate.
  rewrite !list_ascii_of_string_app, Hys, Hms, Hds.
  cbn [list_ascii_of_string app].
  change (Ascii.eqb "-" "-") with true. cbn [andb].
  rewrite Hyv, Hmv, Hdv.
  assert (Hok : (1 <=? m) && (m <=? 12) && (1 <=? d) && (d <=? daysInMonth y m)
                = true) by lia.
  by rewrite Hok.
Qed.

End DefaultDate.

(** X22: the date that an untouched form carries, the ISO date of the
    clock reading, is read back by the charts as a valid date, midnight of
    the current day, for the years 0 to 9999; a record submitted with it
    is therefore never counted among the invalid dates and lies within the
    thirty days of the daily trend. *)
Theorem default_date_is_today (now : Z) (e : Expense) :
  0 <= JSDate.YearFromTime now <= 9999 ->
  date e = Form.date (emptyForm now) ->
  JSDate.ofString (date e) = Some (JSDate.Day now * JSDate.msPerDay) /\
  JSDate.Day now * JSDate.msPerDay <= now < (JSDate.Day now + 1) * JSDate.msPerDay /\
  hasInvalidDate e = false /\
  Charts.inLastThirtyDays now e = true.
Proof.
  intros Hy He. cbn [emptyForm Form.date] in He.
  pose proof (toISODate_parses now Hy) as Hparse. rewrite <- He in Hparse.
  pose proof (civil_from_days_valid (JSDate.Day now)) as [Hm _].
  pose proof (days_from_civil_from_days (JSDate.Day now)) as Hday.
  destruct (JSDate.civil_from_days (JSDate.Day now)) as [[y m] d].
  cbn [fst snd] in Hm.
  assert (Hdate : JSDate.ofString (date e) =
                  Some (JSDate.Day now * JSDate.msPerDay)).
  { unfold JSDate.ofString. rewrite Hparse, MakeDay_civil, Hday by done.
    unfold JSDate.MakeDate. f_equal; try lia. }
  assert (Hbounds : JSDate.Day now * JSDate.msPerDay <= now <
                    (JSDate.Day now + 1) * JSDate.msPerDay).
  { unfold JSDate.Day, JSDate.msPerDay. Z.div_mod_to_equations. lia. }
  split_and!; [done|lia|lia| |].
  - unfold hasInvalidDate. by rewrite Hdate.
  - apply inLastThirtyDays_spec. eexists. split; [exact Hdate|].
    unfold JSDate.msPerDay in *. lia.
Qed.

Lemma default_date_witness :
  Charts.inLastThirtyDays 1710000000000
    (mkExpense "1710000000000" (ofZ 12) "Other" "stamps"
       (Form.date (emptyForm 1710000000000))) = true.
Proof.
  assert (Hy : 0 <= JSDate.YearFromTime 1710000000000 <= 9999)
    by (vm_compute; split; discriminate).
  exact (proj2 (proj2 (proj2
    (default_date_is_today 1710000000000
       (mkExpense "1710000000000" (ofZ 12) "Other" "stamps"
          (Form.date (emptyForm 1710000000000))) Hy eq_refl)))).
Defined.
